(** * scripts/tag-release.mjs

    A shallow embedding of the release-tagging script and the properties
    of its runs.

    The script is thirty-odd lines of JavaScript over five platform
    services: the command line parsed by commander, [import.meta.url],
    [fs/promises.readFile], [JSON.parse] and [child_process.execSync]
    wrapped by [util.promisify].  The embedding keeps the shape of the
    source:

    - JavaScript values are an inductive type, with the two language
      conversions the script relies on ([ToBoolean] for [!tag],
      [ToString] for the template literal);
    - statements run in a small monad that threads the observable
      events and the promises created so far, and that can finish
      normally, throw, or stay suspended on a promise;
    - what the machine around the script answers (the file system, the
      JSON text of the summary, the spawned commands) is a [Host]
      record, over which every statement is quantified.

    The platform is Node.js as documented: [execSync] is synchronous and
    throws on a non-zero status, [promisify] calls its function from a
    promise executor, and a rejection nobody handles ends the process
    with an uncaught error (the default since Node.js 15). *)

From Stdlib Require Import String Ascii List ZArith Bool Lia.
Import ListNotations.

Local Open Scope list_scope.
Local Open Scope string_scope.

(** ** JavaScript values *)

(** A number is carried by its [Number::toString] rendering: string
    conversion and truthiness are the only observations a script can
    make on a number it never computes with. *)
#[warnings="-register-all"]
Inductive value : Type :=
| VUndefined
| VNull
| VBool (b : bool)
| VNumber (repr : string)
| VString (s : string)
| VArray (elements : list value)
| VObject (properties : list (string * value))
| VPromise (id : nat).

Inductive exn_kind : Type := Error | TypeError | SyntaxError | SystemError.

(** Everything thrown in a run is an error object. *)
Record exn : Type := mkExn { kind : exn_kind; message : string }.

Definition result (A : Type) : Type := (exn + A)%type.

Definition and_then {A B : Type} (r : result A) (k : A -> result B) : result B :=
match r with
| inl e => inl e
| inr a => k a
end.

(** Own property lookup; the first binding of a key is the property. *)
Fixpoint own_property (properties : list (string * value)) (key : string) : option value :=
match properties with
| [] => None
| (k, v) :: rest => if String.eqb k key then Some v else own_property rest key
end.

Definition has_own_property (properties : list (string * value)) (key : string) : bool :=
match own_property properties key with
| Some _ => true
| None => false
end.

(** [ToBoolean], as applied by [!tag]. *)
Definition ToBoolean (v : value) : bool :=
match v with
| VUndefined | VNull => false
| VBool b => b
| VNumber repr => negb (String.eqb repr "0" || String.eqb repr "NaN")
| VString s => negb (String.eqb s "")
| VArray _ | VObject _ | VPromise _ => true
end.

(** [ToString], as applied to the substitutions of a template literal.
    An array goes through [Array.prototype.join]; a plain object answers
    ["[object Object]"] through [Object.prototype.toString], unless an
    own property shadows [toString]: data is never callable, and
    [Object.prototype.valueOf] gives the object back, so the conversion
    ends in a TypeError. *)
Fixpoint ToString (v : value) : result string :=
match v with
| VUndefined => inr "undefined"
| VNull => inr "null"
| VBool true => inr "true"
| VBool false => inr "false"
| VNumber repr => inr repr
| VString s => inr s
| VArray elements =>
    let fix join_elements (l : list value) : result (list string) :=
      match l with
      | [] => inr []
      | x :: rest =>
          and_then
            (match x with
             | VUndefined | VNull => inr ""
             | _ => ToString x
             end)
            (fun s => and_then (join_elements rest) (fun ss => inr (s :: ss)))
      end in
    and_then (join_elements elements) (fun ss => inr (String.concat "," ss))
| VObject properties =>
    if has_own_property properties "toString"
    then inl (mkExn TypeError "Cannot convert object to primitive value")
    else inr "[object Object]"
| VPromise _ => inr "[object Promise]"
end.

(** Reading property [key] of [v], for a key that no built-in prototype
    defines (the script reads [packageName] and [version] only).
    Destructuring [undefined] or [null] throws; a primitive, an array or
    a promise has no such property. *)
Definition get_property (v : value) (key : string) : result value :=
match v with
| VUndefined | VNull =>
    inl (mkExn TypeError ("Cannot destructure property '" ++ key ++ "'"))
| VObject properties =>
    inr (match own_property properties key with
         | Some x => x
         | None => VUndefined
         end)
| VBool _ | VNumber _ | VString _ | VArray _ | VPromise _ => inr VUndefined
end.

(** A template literal: the cooked head, then each substitution followed
    by its cooked string, converted left to right. *)
Fixpoint template (head : string) (substitutions : list (value * string)) : result string :=
match substitutions with
| [] => inr head
| (v, cooked) :: rest =>
    and_then (ToString v) (fun s =>
    and_then (template cooked rest) (fun tail => inr (head ++ s ++ tail)))
end.

(** ** URLs *)

(** A hierarchical URL: its scheme and the segments of its path. *)
Record URL : Type := mkURL { protocol : string; segments : list string }.

Fixpoint split (sep : ascii) (s : string) : list string :=
match s with
| EmptyString => [EmptyString]
| String c rest =>
    if Ascii.eqb c sep then EmptyString :: split sep rest
    else match split sep rest with
         | [] => [String c EmptyString]
         | first :: others => String c first :: others
         end
end.

Definition is_ascii_alpha (c : ascii) : bool :=
let n := nat_of_ascii c in
(Nat.leb 65 n && Nat.leb n 90) || (Nat.leb 97 n && Nat.leb n 122).

(** A normalized Windows drive letter: a letter and a colon. *)
Definition is_drive_letter (segment : string) : bool :=
match segment with
| String c (String colon EmptyString) => is_ascii_alpha c && Ascii.eqb colon ":"
| _ => false
end.

(** Shortening a path: the last segment goes, except for the lone drive
    letter of a [file:] URL, which stays. *)
Definition shorten (scheme : string) (path : list string) : list string :=
match path with
| [segment] =>
    if String.eqb scheme "file:" && is_drive_letter segment then path else []
| _ => removelast path
end.

(** One step of the URL parser's path state. *)
Definition path_step (scheme : string) (path : list string) (segment : string)
  : list string :=
if String.eqb segment ".." then shorten scheme path
else if String.eqb segment "." then path
else (path ++ [segment])%list.

(** [new URL(relative, base)] for a path-relative reference: the base
    path is shortened, then the reference is walked segment by
    segment. *)
Definition new_URL (relative : string) (base : URL) : URL :=
mkURL (protocol base)
      (fold_left (path_step (protocol base)) (split "/" relative)
                 (shorten (protocol base) (segments base))).

(** [url.pathname]: the segments as they stand in the URL, each behind a
    slash; nothing is percent-decoded. *)
Definition pathname (u : URL) : string :=
String.concat "" (map (fun segment => "/" ++ segment) (segments u)).

(** ** Events, promises and the statement monad *)

(** What a run does to the world around it, in the order it does it:
    it asks for a file, it reads a variable of its environment, it
    spawns a shell on a command, it comes back
    from waiting for a child to close (with the status the child left),
    it writes to its own standard error. *)
Inductive event : Type :=
| EvReadFile (path encoding : string)
| EvGetenv (name : string)
| EvSpawn (command : string)
| EvClose (command : string) (status : Z)
| EvStderr (text : string).

Inductive settled : Type :=
| Pending
| Fulfilled (v : value)
| Rejected (e : exn).

(** A promise and whether anything was ever attached to it. *)
Record promise : Type := mkPromise { settlement : settled; handled : bool }.

Record state : Type := mkState { events : list event; heap : list promise }.

Definition initial : state := mkState [] [].

Inductive outcome (A : Type) : Type :=
| Normal (a : A)
| Throw (e : exn)
| Suspended.

Arguments Normal {A} a.
Arguments Throw {A} e.
Arguments Suspended {A}.

Definition M (A : Type) : Type := state -> outcome A * state.

Definition ret {A : Type} (a : A) : M A := fun st => (Normal a, st).

Definition bind {A B : Type} (m : M A) (k : A -> M B) : M B :=
fun st =>
  match m st with
  | (Normal a, st') => k a st'
  | (Throw e, st') => (Throw e, st')
  | (Suspended, st') => (Suspended, st')
  end.

Definition throw {A : Type} (e : exn) : M A := fun st => (Throw e, st).

Definition lift {A : Type} (r : result A) : M A :=
match r with
| inl e => throw e
| inr a => ret a
end.

Definition emit (evs : list event) : M unit :=
fun st => (Normal tt, mkState (events st ++ evs) (heap st)).

Declare Scope js_scope.
Delimit Scope js_scope with js.
Notation "x <- c ;; k" := (bind c (fun x => k))
  (at level 61, c at next level, right associativity) : js_scope.
Notation "c ;; k" := (bind c (fun _ => k))
  (at level 61, right associativity) : js_scope.
Local Open Scope js_scope.

(** The commands spawned so far. *)
Fixpoint spawned (evs : list event) : list string :=
match evs with
| [] => []
| EvSpawn command :: rest => command :: spawned rest
| _ :: rest => spawned rest
end.

(** The files read so far. *)
Fixpoint files_read (evs : list event) : list string :=
match evs with
| [] => []
| EvReadFile path _ :: rest => path :: files_read rest
| _ :: rest => files_read rest
end.

Fixpoint update (id : nat) (f : promise -> promise) (h : list promise) : list promise :=
match h, id with
| [], _ => []
| p :: rest, O => f p :: rest
| p :: rest, S n => p :: update n f rest
end.

(** Allocate a promise; its identity is its rank in the heap. *)
Definition alloc (s : settled) : M nat :=
fun st => (Normal (length (heap st)),
           mkState (events st) (heap st ++ [mkPromise s false])).

(** The resolving functions of a promise: only a pending promise settles. *)
Definition settle (id : nat) (s : settled) : M unit :=
fun st => (Normal tt,
           mkState (events st)
                   (update id (fun p => match settlement p with
                                        | Pending => mkPromise s (handled p)
                                        | _ => p
                                        end) (heap st))).

Definition mark_handled (id : nat) : M unit :=
fun st => (Normal tt,
           mkState (events st)
                   (update id (fun p => mkPromise (settlement p) true) (heap st))).

Definition settlement_of (h : list promise) (id : nat) : settled :=
match nth_error h id with
| Some p => settlement p
| None => Pending
end.

(** [new Promise(executor)]: the executor runs at once; an exception it
    throws rejects the promise instead of reaching the caller. *)
Definition new_Promise
  (executor : (value -> M unit) -> (exn -> M unit) -> M unit) : M value :=
fun st =>
  match alloc Pending st with
  | (Normal id, st0) =>
      match executor (fun v => settle id (Fulfilled v))
                     (fun e => settle id (Rejected e)) st0 with
      | (Normal _, st1) => (Normal (VPromise id), st1)
      | (Throw e, st1) => (Normal (VPromise id), snd (settle id (Rejected e) st1))
      | (Suspended, st1) => (Suspended, st1)
      end
  | (Throw e, st0) => (Throw e, st0)
  | (Suspended, st0) => (Suspended, st0)
  end.

(** [await v]: a value that is no promise is its own result; a promise
    gives its value, throws its reason, or never resumes. *)
Definition await (v : value) : M value :=
match v with
| VPromise id =>
    mark_handled id ;;
    fun st => match settlement_of (heap st) id with
              | Fulfilled x => (Normal x, st)
              | Rejected e => (Throw e, st)
              | Pending => (Suspended, st)
              end
| _ => ret v
end.

(** [Promise.all] over the elements of an array.  Every element that is
    a promise gets a reaction; the result rejects with the first
    rejected element, stays pending while an element is pending, and is
    otherwise fulfilled with the array of the elements' values. *)
Fixpoint mark_elements (l : list value) : M unit :=
match l with
| [] => ret tt
| VPromise id :: rest => mark_handled id ;; mark_elements rest
| _ :: rest => mark_elements rest
end.

Definition element_settlement (h : list promise) (x : value) : settled :=
match x with
| VPromise id => settlement_of h id
| _ => Fulfilled x
end.

Fixpoint first_rejection (h : list promise) (l : list value) : option exn :=
match l with
| [] => None
| x :: rest =>
    match element_settlement h x with
    | Rejected e => Some e
    | _ => first_rejection h rest
    end
end.

Fixpoint values_if_fulfilled (h : list promise) (l : list value) : option (list value) :=
match l with
| [] => Some []
| x :: rest =>
    match element_settlement h x, values_if_fulfilled h rest with
    | Fulfilled v, Some vs => Some (v :: vs)
    | _, _ => None
    end
end.

Definition Promise_all (l : list value) : M value :=
mark_elements l ;;
fun st =>
  let s := match first_rejection (heap st) l with
           | Some e => Rejected e
           | None => match values_if_fulfilled (heap st) l with
                     | Some vs => Fulfilled (VArray vs)
                     | None => Pending
                     end
           end in
  match alloc s st with
  | (Normal id, st') => (Normal (VPromise id), st')
  | (Throw e, st') => (Throw e, st')
  | (Suspended, st') => (Suspended, st')
  end.

(** [array.map(callback)]: the callback runs on each element in order,
    an exception ends the loop; anything but an array has no callable
    [map]. *)
Fixpoint map_elements (callback : value -> M value) (l : list value) : M (list value) :=
match l with
| [] => ret []
| x :: rest =>
    y <- callback x ;;
    ys <- map_elements callback rest ;;
    ret (y :: ys)
end.

Definition Array_map (receiver : value) (callback : value -> M value) : M (list value) :=
match receiver with
| VArray elements => map_elements callback elements
| VUndefined | VNull =>
    throw (mkExn TypeError "Cannot read properties of undefined or null (reading 'map')")
| _ => throw (mkExn TypeError "publishSummary.map is not a function")
end.

(** ** The host *)

(** What a child process leaves behind once it has closed. *)
Record spawn_result : Type :=
  mkSpawnResult { status : Z; stdout : string; stderr : string }.

(** The machine a run happens on.  [program_tag] is what commander's
    [parse] leaves in [program.tag] for the option [--tag <tag>]: the
    argument of the flag, or nothing when the flag is absent (a command
    line that commander refuses ends the process inside [parse], before
    the script has done anything).
    [child n command] is the fate of [command] when it is the [n]-th
    command spawned by the run, counting from zero; every child closes
    in the end, and one that was killed is a child with a non-zero
    status. *)
Record Host : Type := mkHost {
  program_tag : option string;
  import_meta_url : URL;
  fs_readFile : string -> string -> result string;
  JSON_parse : string -> result value;
  child : nat -> string -> spawn_result
}.

Record exec_options : Type :=
  mkOptions { encoding : string; stdio : option string }.

Definition newline : string := String (ascii_of_nat 10) EmptyString.

(** The error [execSync] throws for a command that closed with a
    non-zero status. *)
Definition command_failed (command : string) (r : spawn_result) : exn :=
mkExn Error ("Command failed: " ++ command
             ++ (if String.eqb (stderr r) "" then "" else newline ++ stderr r)).

(** What [execSync] does to the world: spawn the shell, wait until the
    child has closed, copy its standard error unless [stdio] says
    otherwise. *)
Definition execSync_events (command : string) (options : exec_options)
  (r : spawn_result) : list event :=
([EvSpawn command; EvClose command (status r)]
 ++ match stdio options with
    | None => if String.eqb (stderr r) "" then [] else [EvStderr (stderr r)]
    | Some _ => []
    end)%list.

Section Script.

Variable host : Host.

(** [fs/promises.readFile(path, encoding)]: a promise for the text of
    the file. *)
Definition readFile (path enc : string) : M value :=
emit [EvReadFile path enc] ;;
id <- alloc (match fs_readFile host path enc with
             | inl e => Rejected e
             | inr text => Fulfilled (VString text)
             end) ;;
ret (VPromise id).

(** [child_process.execSync(command, options)]: the command runs in a
    shell and the call returns when the child has closed.  Without a
    [stdio] option the child's standard error is copied to the parent's;
    a non-zero status is thrown as an error, a zero status returns the
    child's standard output. *)
Definition execSync (command : string) (options : exec_options) : M value :=
fun st =>
  let r := child host (length (spawned (events st))) command in
  let st' := mkState (events st ++ execSync_events command options r) (heap st) in
  if Z.eqb (status r) 0 then (Normal (VString (stdout r)), st')
  else (Throw (command_failed command r), st').

(** [util.promisify(original)]: the wrapper appends a node-style
    callback to the arguments and calls [original] from the executor of
    a new promise; the promise settles when the callback is called. *)
Definition promisify
  (original : string -> exec_options -> (result value -> M unit) -> M value)
  : string -> exec_options -> M value :=
fun command options =>
  new_Promise (fun resolve reject =>
    original command options
      (fun r => match r with
                | inl err => reject err
                | inr v => resolve v
                end) ;;
    ret tt).

(** [let exec = promisify(execSync)]: [execSync] takes a command and
    options, and never looks at a third argument. *)
Definition exec : string -> exec_options -> M value :=
promisify (fun command options _ => execSync command options).

(** The arrow function handed to [publishSummary.map]:
    [({packageName, version}) => { exec(`npm dist-tag add ...`, {encoding: 'utf8'}); }].
    The block body has no [return]. *)
Definition map_callback (tag : value) (entry : value) : M value :=
packageName <- lift (get_property entry "packageName") ;;
version <- lift (get_property entry "version") ;;
command <- lift (template "npm dist-tag add "
                          [(packageName, "@"); (version, " "); (tag, "")]) ;;
exec command (mkOptions "utf8" None) ;;
ret VUndefined.

(** [async function main(tag)]; the outcome is the fate of the promise
    the call returns. *)
Definition main (tag : value) : M value :=
file <- readFile (pathname (new_URL "../lerna-publish-summary.json"
                                    (import_meta_url host))) "utf8" ;;
text <- await file ;;
publishSummary <- lift (and_then (ToString text) (JSON_parse host)) ;;
promises <- Array_map publishSummary (map_callback tag) ;;
all <- Promise_all promises ;;
await all ;;
ret VUndefined.

(** How the call of an async function ends for its caller. *)
Definition promise_of (o : outcome value) : settled :=
match o with
| Normal v => Fulfilled v
| Throw e => Rejected e
| Suspended => Pending
end.

(** The rejected promises nobody ever attached anything to, oldest
    first. *)
Definition unhandled_rejections (h : list promise) : list exn :=
flat_map (fun p => match settlement p, handled p with
                   | Rejected e, false => [e]
                   | _, _ => []
                   end) h.

(** How a run of the script ends: the final state, the promise returned
    by [main] when [main] was called, the error that brought the process
    down if any, and the exit status.  An exception at the top level of
    the module is uncaught; so is a rejection left unhandled, which the
    host raises once the script has nothing more to run (the default of
    Node.js 15 and later). *)
Record completion : Type := mkCompletion {
  final : state;
  main_promise : option settled;
  uncaught : option exn;
  exit_status : Z
}.

Definition value_of_tag (t : option string) : value :=
match t with
| Some s => VString s
| None => VUndefined
end.

(** The module body: parse the command line, check the tag, call
    [main] and drop its promise. *)
Definition script : completion :=
let tag := value_of_tag (program_tag host) in
if negb (ToBoolean tag)
then mkCompletion initial None
                  (Some (mkExn Error "Required option `tag` not specified")) 1
else
  let (o, st) := main tag initial in
  let rejections :=
    (unhandled_rejections (heap st)
     ++ match o with Throw e => [e] | _ => [] end)%list in
  mkCompletion st (Some (promise_of o)) (hd_error rejections)
               (match rejections with [] => 0 | _ :: _ => 1 end)%Z.

End Script.

(** ** Describing runs *)

(** An entry of the publish summary, as the publishing tool writes it. *)
Record PublishSummaryEntry : Type :=
  mkEntry { packageName : string; version : string }.

(** [v] is an object whose [packageName] and [version] are the strings
    of [e]. *)
Definition entry_of (e : PublishSummaryEntry) (v : value) : Prop :=
exists properties,
  v = VObject properties
  /\ own_property properties "packageName" = Some (VString (packageName e))
  /\ own_property properties "version" = Some (VString (version e)).

(** The command line the source spells for an entry and a tag. *)
Definition tagging_command (tag : string) (e : PublishSummaryEntry) : string :=
"npm dist-tag add " ++ packageName e ++ "@" ++ version e ++ " " ++ tag.

(** The form the specification gives for the same invocation. *)
Definition add_dist_tag_form (tag : string) (e : PublishSummaryEntry) : string :=
"add dist-tag " ++ packageName e ++ "@" ++ version e ++ " " ++ tag.

Definition occurs_in (pattern s : string) : bool :=
match String.index 0 pattern s with
| Some _ => true
| None => false
end.

(** The argument the callback computes for [exec], when it gets that
    far. *)
Definition command_of (tag entry : value) : result string :=
and_then (get_property entry "packageName") (fun p =>
and_then (get_property entry "version") (fun v =>
template "npm dist-tag add " [(p, "@"); (v, " "); (tag, "")])).

(** The text a field of an object entry contributes to the command. *)
Definition interpolated (properties : list (string * value)) (key : string)
  : result string :=
match own_property properties key with
| Some x => ToString x
| None => inr "undefined"
end.

(** Where [main] looks for the summary. *)
Definition summary_path (host : Host) : string :=
pathname (new_URL "../lerna-publish-summary.json" (import_meta_url host)).

(** The promise [exec] leaves behind: rejected when the command failed,
    pending for ever otherwise, and never given a reaction. *)
Definition exec_promise (command : string) (r : spawn_result) : promise :=
mkPromise (if Z.eqb (status r) 0 then Pending
           else Rejected (command_failed command r)) false.

(** The state after one call of [exec], and after one call per command
    of a list. *)
Definition after_exec (host : Host) (st : state) (command : string) : state :=
let r := child host (length (spawned (events st))) command in
mkState (events st ++ execSync_events command (mkOptions "utf8" None) r)
        (heap st ++ [exec_promise command r]).

Fixpoint after_commands (host : Host) (st : state) (commands : list string) : state :=
match commands with
| [] => st
| command :: rest => after_commands host (after_exec host st command) rest
end.

(** The errors of the commands that fail, when [commands] are spawned
    in order from rank [n]. *)
Fixpoint failures (host : Host) (n : nat) (commands : list string) : list exn :=
match commands with
| [] => []
| command :: rest =>
    let r := child host n command in
    ((if Z.eqb (status r) 0 then [] else [command_failed command r])
     ++ failures host (S n) rest)%list
end.

(** Fan-out: once the run has waited for a child to close, it spawns
    nothing more. *)
Fixpoint spawns_without_waiting (evs : list event) : bool :=
match evs with
| [] => true
| EvClose _ _ :: rest =>
    match spawned rest with
    | [] => true
    | _ :: _ => false
    end
| _ :: rest => spawns_without_waiting rest
end.


(** ** A host to run examples on *)

(** A reader for a fragment of JSON (arrays, objects, strings without
    escapes, [true], [false], [null]) stands for [JSON.parse] on the
    example hosts; the theorems below hold for any [JSON_parse]. *)
Module Example.

Definition dquote : ascii := ascii_of_nat 34.

Definition quoted (s : string) : string :=
String dquote (s ++ String dquote EmptyString).

Definition is_space (c : ascii) : bool :=
Ascii.eqb c " " || Ascii.eqb c (ascii_of_nat 9)
|| Ascii.eqb c (ascii_of_nat 10) || Ascii.eqb c (ascii_of_nat 13).

Fixpoint skip_spaces (s : string) : string :=
match s with
| String c rest => if is_space c then skip_spaces rest else s
| EmptyString => s
end.

(** The characters up to the closing quote, and what follows it. *)
Fixpoint read_string (s : string) : option (string * string) :=
match s with
| EmptyString => None
| String c rest =>
    if Ascii.eqb c dquote then Some (EmptyString, rest)
    else if Ascii.eqb c "\" then None
    else match read_string rest with
         | Some (body, after) => Some (String c body, after)
         | None => None
         end
end.

Fixpoint read_keyword (keyword s : string) : option string :=
match keyword, s with
| EmptyString, _ => Some s
| String k keyword', String c rest =>
    if Ascii.eqb k c then read_keyword keyword' rest else None
| String _ _, EmptyString => None
end.

(** A later member of the same name replaces an earlier one. *)
Definition add_member (k : string) (v : value) (members : list (string * value))
  : list (string * value) :=
if has_own_property members k then members else (k, v) :: members.

Fixpoint read_value (fuel : nat) (s : string) : option (value * string) :=
match fuel with
| O => None
| S fuel' =>
    match skip_spaces s with
    | EmptyString => None
    | String c rest =>
        if Ascii.eqb c dquote then
          match read_string rest with
          | Some (body, after) => Some (VString body, after)
          | None => None
          end
        else if Ascii.eqb c "[" then
          match skip_spaces rest with
          | String c' rest' =>
              if Ascii.eqb c' "]" then Some (VArray [], rest')
              else match read_elements fuel' rest with
                   | Some (l, after) => Some (VArray l, after)
                   | None => None
                   end
          | EmptyString => None
          end
        else if Ascii.eqb c "{" then
          match skip_spaces rest with
          | String c' rest' =>
              if Ascii.eqb c' "}" then Some (VObject [], rest')
              else match read_members fuel' rest with
                   | Some (l, after) => Some (VObject l, after)
                   | None => None
                   end
          | EmptyString => None
          end
        else if Ascii.eqb c "t" then
          option_map (fun after => (VBool true, after)) (read_keyword "rue" rest)
        else if Ascii.eqb c "f" then
          option_map (fun after => (VBool false, after)) (read_keyword "alse" rest)
        else if Ascii.eqb c "n" then
          option_map (fun after => (VNull, after)) (read_keyword "ull" rest)
        else None
    end
end
with read_elements (fuel : nat) (s : string) : option (list value * string) :=
match fuel with
| O => None
| S fuel' =>
    match read_value fuel' s with
    | Some (v, after) =>
        match skip_spaces after with
        | String c rest =>
            if Ascii.eqb c "]" then Some ([v], rest)
            else if Ascii.eqb c "," then
              match read_elements fuel' rest with
              | Some (l, after') => Some (v :: l, after')
              | None => None
              end
            else None
        | EmptyString => None
        end
    | None => None
    end
end
with read_members (fuel : nat) (s : string) : option (list (string * value) * string) :=
match fuel with
| O => None
| S fuel' =>
    match skip_spaces s with
    | String q rest =>
        if Ascii.eqb q dquote then
          match read_string rest with
          | Some (k, after_key) =>
              match skip_spaces after_key with
              | String colon rest' =>
                  if Ascii.eqb colon ":" then
                    match read_value fuel' rest' with
                    | Some (v, after) =>
                        match skip_spaces after with
                        | String c rest'' =>
                            if Ascii.eqb c "}" then Some ([(k, v)], rest'')
                            else if Ascii.eqb c "," then
                              match read_members fuel' rest'' with
                              | Some (l, after') => Some (add_member k v l, after')
                              | None => None
                              end
                            else None
                        | EmptyString => None
                        end
                    | None => None
                    end
                  else None
              | EmptyString => None
              end
          | None => None
          end
        else None
    | EmptyString => None
    end
end.

Definition parse (text : string) : result value :=
match read_value (S (String.length text)) text with
| Some (v, after) =>
    match skip_spaces after with
    | EmptyString => inr v
    | String _ _ => inl (mkExn SyntaxError "Unexpected non-whitespace character after JSON")
    end
| None => inl (mkExn SyntaxError "Unexpected token in JSON")
end.

(** The script lives in [/repo/scripts]; the only file on the disk is
    the summary in [/repo], holding [text]. *)
Definition here : URL := mkURL "file:" ["repo"; "scripts"; "tag-release.mjs"].

Definition disk (text : string) (path enc : string) : result string :=
if String.eqb path "/repo/lerna-publish-summary.json" then inr text
else inl (mkExn SystemError ("ENOENT: no such file or directory, open '" ++ path ++ "'")).

Definition succeeds (n : nat) (command : string) : spawn_result :=
mkSpawnResult 0 "" "".

(** The registry refuses every command. *)
Definition refuses (n : nat) (command : string) : spawn_result :=
mkSpawnResult 1 "" "npm ERR! code E403".

Definition host (tag : option string) (text : string)
  (registry : nat -> string -> spawn_result) : Host :=
mkHost tag here (disk text) parse registry.

(** The text
    [[{"packageName":"pkg-a","version":"1.0.0"},{"packageName":"pkg-b","version":"2.3.1"}]]. *)
Definition two_packages : string :=
"[{" ++ quoted "packageName" ++ ":" ++ quoted "pkg-a" ++ ","
     ++ quoted "version" ++ ":" ++ quoted "1.0.0" ++ "},{"
     ++ quoted "packageName" ++ ":" ++ quoted "pkg-b" ++ ","
     ++ quoted "version" ++ ":" ++ quoted "2.3.1" ++ "}]".

Definition two_entries : list PublishSummaryEntry :=
[mkEntry "pkg-a" "1.0.0"; mkEntry "pkg-b" "2.3.1"].

Definition two_values : list value :=
[VObject [("packageName", VString "pkg-a"); ("version", VString "1.0.0")];
 VObject [("packageName", VString "pkg-b"); ("version", VString "2.3.1")]].

(** [--tag latest] over the two packages, on a registry that obliges and
    on one that refuses. *)
Definition obliged : Host := host (Some "latest") two_packages succeeds.
Definition refused : Host := host (Some "latest") two_packages refuses.

(** No [--tag] on the command line. *)
Definition untagged : Host := host None two_packages succeeds.

(** A summary that stops short, and an empty one. *)
Definition truncated : Host := host (Some "latest") "[{" succeeds.
Definition nothing_published : Host := host (Some "latest") "[]" refuses.

End Example.

(** ** Describing every run *)

(** The error of calling [map] on a value that is no array. *)
Definition map_type_error (receiver : value) : exn :=
match receiver with
| VUndefined | VNull =>
    mkExn TypeError "Cannot read properties of undefined or null (reading 'map')"
| _ => mkExn TypeError "publishSummary.map is not a function"
end.

(** The loop seen from outside: the commands of the entries up to the
    first entry that yields none, and the error of that entry. *)
Fixpoint commands_until_error (tag : value) (entries : list value)
  : list string * option exn :=
match entries with
| [] => ([], None)
| entry :: rest =>
    match command_of tag entry with
    | inl e => ([], Some e)
    | inr command =>
        let (commands, failure) := commands_until_error tag rest in
        (command :: commands, failure)
    end
end.

(** What the summary holds in store for a run with tag [t]: the commands
    [main] gets to, and the error that rejects it if one does. *)
Definition plan (host : Host) (t : string) : list string * option exn :=
match fs_readFile host (summary_path host) "utf8" with
| inl e => ([], Some e)
| inr text =>
    match JSON_parse host text with
    | inl e => ([], Some e)
    | inr (VArray entries) => commands_until_error (VString t) entries
    | inr other => ([], Some (map_type_error other))
    end
end.

(** The events of running [commands] one after the other, from rank
    [n]. *)
Fixpoint commands_trace (host : Host) (n : nat) (commands : list string)
  : list event :=
match commands with
| [] => []
| command :: rest =>
    (execSync_events command (mkOptions "utf8" None) (child host n command)
     ++ commands_trace host (S n) rest)%list
end.

(** At most one child at any time: every spawn is followed at once by
    the wait for that very command, and nothing closes that was not just
    spawned. *)
Fixpoint one_child_at_a_time (evs : list event) : bool :=
match evs with
| [] => true
| EvSpawn command :: EvClose closed _ :: rest =>
    String.eqb command closed && one_child_at_a_time rest
| EvSpawn _ :: _ => false
| EvClose _ _ :: _ => false
| _ :: rest => one_child_at_a_time rest
end.

(** An entry that is neither an object nor [null]: it has no
    [packageName] and no [version] to give. *)
Definition has_no_fields (entry : value) : bool :=
match entry with
| VBool _ | VNumber _ | VString _ | VArray _ | VPromise _ => true
| VUndefined | VNull | VObject _ => false
end.

Definition option_to_list {A : Type} (o : option A) : list A :=
match o with
| Some a => [a]
| None => []
end.

(** What the script has written on its standard error while it ran; the
    report the host makes of an uncaught error when the process ends is
    kept apart, in [uncaught]. *)
Fixpoint stderr_written (evs : list event) : list string :=
match evs with
| [] => []
| EvStderr text :: rest => text :: stderr_written rest
| _ :: rest => stderr_written rest
end.

(** What the children of [commands], spawned in order from rank [n],
    have written on theirs, leaving out those that wrote nothing. *)
Fixpoint children_stderr (host : Host) (n : nat) (commands : list string)
  : list string :=
match commands with
| [] => []
| command :: rest =>
    ((if String.eqb (stderr (child host n command)) "" then []
      else [stderr (child host n command)])
     ++ children_stderr host (S n) rest)%list
end.


(** The commands a run has waited for, in the order they closed. *)
Fixpoint closed (evs : list event) : list string :=
match evs with
| [] => []
| EvClose command _ :: rest => command :: closed rest
| _ :: rest => closed rest
end.

(** ** Where the script is *)










(** ** Entries whose fields all have a text *)

(** [entry] is an object whose two fields, each missing or with a string
    conversion, make [command] with tag [t]. *)
Definition interpolates_to (t : string) (entry : value) (command : string) : Prop :=
exists properties p v,
  entry = VObject properties
  /\ interpolated properties "packageName" = inr p
  /\ interpolated properties "version" = inr v
  /\ command = "npm dist-tag add " ++ p ++ "@" ++ v ++ " " ++ t.

(** More summaries to run examples on. *)
Module Sample.

(** The two packages with a [null] between them. *)
Definition null_between : string :=
"[{" ++ Example.quoted "packageName" ++ ":" ++ Example.quoted "pkg-a" ++ ","
     ++ Example.quoted "version" ++ ":" ++ Example.quoted "1.0.0" ++ "},null,{"
     ++ Example.quoted "packageName" ++ ":" ++ Example.quoted "pkg-b" ++ ","
     ++ Example.quoted "version" ++ ":" ++ Example.quoted "2.3.1" ++ "}]".

Definition interrupted : Host :=
Example.host (Some "latest") null_between Example.refuses.

(** A summary that is an object, not an array. *)
Definition keyed : Host := Example.host (Some "latest") "{}" Example.succeeds.

(** A tag that reads like a falsy value. *)
Definition tagged_zero : Host :=
Example.host (Some "0") Example.two_packages Example.succeeds.



(** An entry without [version], an entry whose [packageName] is [null],
    and an entry whose [packageName] has a [toString] of its own. *)
Definition version_missing : string :=
"[{" ++ Example.quoted "packageName" ++ ":" ++ Example.quoted "pkg-a" ++ "}]".

Definition name_null : string :=
"[{" ++ Example.quoted "packageName" ++ ":null,"
     ++ Example.quoted "version" ++ ":" ++ Example.quoted "1.0.0" ++ "}]".

Definition name_unconvertible : string :=
"[{" ++ Example.quoted "packageName" ++ ":{" ++ Example.quoted "toString" ++ ":null}}]".

Definition without_version : Host :=
Example.host (Some "latest") version_missing Example.succeeds.

Definition with_null_name : Host :=
Example.host (Some "latest") name_null Example.succeeds.

Definition with_unconvertible_name : Host :=
Example.host (Some "latest") name_unconvertible Example.succeeds.

(** A registry that obliges with a warning. *)
Definition warns (n : nat) (command : string) : spawn_result :=
mkSpawnResult 0 "" "npm WARN deprecated".

Definition warned : Host :=
Example.host (Some "latest") Example.two_packages warns.

End Sample.

(** * Properties *)

(** ** Lists of events and promises *)

Lemma spawned_app (a b : list event) :
  spawned (a ++ b) = (spawned a ++ spawned b)%list.
Proof.
  induction a as [|e a IH]; simpl; [reflexivity|].
  destruct e; simpl; rewrite IH; reflexivity.
Qed.

Lemma files_read_app (a b : list event) :
  files_read (a ++ b) = (files_read a ++ files_read b)%list.
Proof.
  induction a as [|e a IH]; simpl; [reflexivity|].
  destruct e; simpl; rewrite IH; reflexivity.
Qed.

Lemma spawned_execSync_events command options r :
  spawned (execSync_events command options r) = [command].
Proof.
  unfold execSync_events. simpl.
  destruct (stdio options); [reflexivity|].
  destruct (String.eqb (stderr r) ""); reflexivity.
Qed.

Lemma files_read_execSync_events command options r :
  files_read (execSync_events command options r) = [].
Proof.
  unfold execSync_events. simpl.
  destruct (stdio options); [reflexivity|].
  destruct (String.eqb (stderr r) ""); reflexivity.
Qed.

Lemma update_length f (h : list promise) p :
  update (length h) f (h ++ [p]) = (h ++ [f p])%list.
Proof.
  induction h as [|q h IH]; simpl; [reflexivity|].
  rewrite IH. reflexivity.
Qed.

Lemma settlement_of_length (h : list promise) p :
  settlement_of (h ++ [p]) (length h) = settlement p.
Proof.
  unfold settlement_of.
  rewrite nth_error_app2 by lia.
  rewrite Nat.sub_diag. reflexivity.
Qed.

Lemma unhandled_rejections_app (a b : list promise) :
  unhandled_rejections (a ++ b)
  = (unhandled_rejections a ++ unhandled_rejections b)%list.
Proof. unfold unhandled_rejections. apply flat_map_app. Qed.

(** ** One call of [exec] *)

Section Calls.

Variable host : Host.

(** [exec] never throws and never resolves: it spawns the command, waits
    for it, and leaves a promise that is rejected or pending. *)
Lemma exec_run command st :
  exec host command (mkOptions "utf8" None) st
  = (Normal (VPromise (length (heap st))), after_exec host st command).
Proof.
  unfold exec, promisify, new_Promise, alloc, bind, execSync, after_exec,
    exec_promise, settle, ret.
  simpl.
  destruct (Z.eqb (status (child host (length (spawned (events st))) command)) 0);
    simpl; [reflexivity|].
  rewrite update_length. reflexivity.
Qed.

Lemma map_callback_run tag entry command st :
  command_of tag entry = inr command ->
  map_callback host tag entry st = (Normal VUndefined, after_exec host st command).
Proof.
  unfold command_of, map_callback. intros H.
  unfold bind at 1.
  destruct (get_property entry "packageName") as [e|p]; simpl in *; [discriminate|].
  unfold bind at 1.
  destruct (get_property entry "version") as [e|v]; simpl in *; [discriminate|].
  unfold bind at 1.
  rewrite H. simpl.
  unfold bind. rewrite exec_run. reflexivity.
Qed.

Lemma map_callback_throws tag entry e st :
  command_of tag entry = inl e ->
  map_callback host tag entry st = (Throw e, st).
Proof.
  unfold command_of, map_callback. intros H.
  unfold bind at 1.
  destruct (get_property entry "packageName") as [e1|p]; simpl in *;
    [congruence|].
  unfold bind at 1.
  destruct (get_property entry "version") as [e2|v]; simpl in *;
    [congruence|].
  unfold bind at 1.
  rewrite H. reflexivity.
Qed.

End Calls.

(** ** The loop over the summary *)

Section Loop.

Variable host : Host.

Lemma spawned_after_exec st command :
  spawned (events (after_exec host st command))
  = (spawned (events st) ++ [command])%list.
Proof.
  unfold after_exec. simpl.
  rewrite spawned_app, spawned_execSync_events. reflexivity.
Qed.

Lemma spawned_after_commands commands : forall st,
  spawned (events (after_commands host st commands))
  = (spawned (events st) ++ commands)%list.
Proof.
  induction commands as [|c commands IH]; intros st; simpl.
  - rewrite app_nil_r. reflexivity.
  - rewrite IH, spawned_after_exec, <- app_assoc. reflexivity.
Qed.

Lemma files_read_after_commands commands : forall st,
  files_read (events (after_commands host st commands))
  = files_read (events st).
Proof.
  induction commands as [|c commands IH]; intros st; simpl; [reflexivity|].
  rewrite IH. unfold after_exec. simpl.
  rewrite files_read_app, files_read_execSync_events, app_nil_r. reflexivity.
Qed.

Lemma unhandled_after_commands commands : forall st,
  unhandled_rejections (heap (after_commands host st commands))
  = (unhandled_rejections (heap st)
     ++ failures host (length (spawned (events st))) commands)%list.
Proof.
  induction commands as [|c commands IH]; intros st; simpl.
  - rewrite app_nil_r. reflexivity.
  - rewrite IH, spawned_after_exec, length_app. simpl.
    rewrite Nat.add_1_r.
    unfold after_exec. simpl heap.
    rewrite unhandled_rejections_app, <- app_assoc. f_equal. f_equal.
    unfold exec_promise, unhandled_rejections. simpl.
    destruct (Z.eqb (status (child host (length (spawned (events st))) c)) 0);
      reflexivity.
Qed.

(** No failure means every command closed with status 0. *)
Lemma failures_nil_iff commands : forall n,
  failures host n commands = []
  <-> forall i command,
        nth_error commands i = Some command ->
        status (child host (n + i) command) = 0%Z.
Proof.
  induction commands as [|c commands IH]; intros n; simpl.
  - split; [|reflexivity]. intros _ [|i] command; discriminate.
  - split.
    + intros H. apply app_eq_nil in H. destruct H as [Hc Hrest].
      intros [|i] command Hi; simpl in Hi.
      * injection Hi as <-. rewrite Nat.add_0_r.
        destruct (Z.eqb_spec (status (child host n c)) 0); [assumption|discriminate].
      * rewrite Nat.add_succ_r. apply (proj1 (IH (S n)) Hrest i command Hi).
    + intros H.
      rewrite (proj2 (IH (S n))).
      * specialize (H 0 c eq_refl). rewrite Nat.add_0_r in H. rewrite H. reflexivity.
      * intros i command Hi. specialize (H (S i) command Hi).
        rewrite Nat.add_succ_r in H. exact H.
Qed.

(** Every promise [exec] creates is left without a reaction. *)
Lemma heap_after_commands commands : forall st,
  exists created,
    heap (after_commands host st commands) = (heap st ++ created)%list
    /\ length created = length commands
    /\ Forall (fun p => handled p = false /\ forall v, settlement p <> Fulfilled v)
              created.
Proof.
  induction commands as [|c commands IH]; intros st; simpl.
  - exists []. rewrite app_nil_r. repeat split. constructor.
  - destruct (IH (after_exec host st c)) as (created & Hh & Hl & Hf).
    exists (exec_promise c (child host (length (spawned (events st))) c) :: created).
    split; [|split].
    + rewrite Hh. unfold after_exec. simpl. rewrite <- app_assoc. reflexivity.
    + simpl. congruence.
    + constructor; [|exact Hf].
      unfold exec_promise. simpl. split; [reflexivity|].
      intros v. destruct (Z.eqb _ 0); discriminate.
Qed.

(** Over entries that all yield a command, the loop spawns the commands
    one after the other and collects one [undefined] per entry. *)
Lemma map_elements_run tag entries commands : forall st,
  Forall2 (fun entry command => command_of tag entry = inr command)
          entries commands ->
  map_elements (map_callback host tag) entries st
  = (Normal (repeat VUndefined (length entries)),
     after_commands host st commands).
Proof.
  intros st H. revert st.
  induction H as [|entry command entries commands Hc _ IH]; intros st; simpl.
  - reflexivity.
  - unfold bind at 1. rewrite (map_callback_run host _ _ _ _ Hc).
    unfold bind at 1. rewrite IH. reflexivity.
Qed.

Lemma mark_elements_undefined n st :
  mark_elements (repeat VUndefined n) st = (Normal tt, st).
Proof. induction n as [|n IH]; simpl; [reflexivity | exact IH]. Qed.

Lemma first_rejection_undefined h n :
  first_rejection h (repeat VUndefined n) = None.
Proof. induction n as [|n IH]; simpl; [reflexivity | exact IH]. Qed.

Lemma values_if_fulfilled_undefined h n :
  values_if_fulfilled h (repeat VUndefined n) = Some (repeat VUndefined n).
Proof. induction n as [|n IH]; simpl; [reflexivity | rewrite IH; reflexivity]. Qed.

(** [await Promise.all] of an array of [undefined] goes through at once:
    there is no promise in the array to wait for. *)
Lemma await_all_undefined n st :
  (all <- Promise_all (repeat VUndefined n) ;; await all) st
  = (Normal (VArray (repeat VUndefined n)),
     mkState (events st)
             (heap st ++ [mkPromise (Fulfilled (VArray (repeat VUndefined n))) true])).
Proof.
  unfold Promise_all, alloc, await, mark_handled, bind.
  rewrite mark_elements_undefined. simpl.
  rewrite first_rejection_undefined, values_if_fulfilled_undefined. simpl.
  rewrite update_length. simpl.
  rewrite settlement_of_length. reflexivity.
Qed.

End Loop.

(** ** Runs of [main] *)

Section Main.

Variable host : Host.

(** The first statement of [main]: ask for the file and wait for it. *)
Lemma read_summary st :
  (file <- readFile host (summary_path host) "utf8" ;; await file) st
  = match fs_readFile host (summary_path host) "utf8" with
    | inl e =>
        (Throw e,
         mkState (events st ++ [EvReadFile (summary_path host) "utf8"])
                 (heap st ++ [mkPromise (Rejected e) true]))
    | inr text =>
        (Normal (VString text),
         mkState (events st ++ [EvReadFile (summary_path host) "utf8"])
                 (heap st ++ [mkPromise (Fulfilled (VString text)) true]))
    end.
Proof.
  unfold readFile, emit, alloc, ret, await, mark_handled, bind. simpl.
  rewrite update_length, settlement_of_length.
  destruct (fs_readFile host (summary_path host) "utf8"); reflexivity.
Qed.

Lemma main_unfold tag st :
  main host tag st
  = (text <- (file <- readFile host (summary_path host) "utf8" ;; await file) ;;
     publishSummary <- lift (and_then (ToString text) (JSON_parse host)) ;;
     promises <- Array_map publishSummary (map_callback host tag) ;;
     (all <- Promise_all promises ;; await all) ;;
     ret VUndefined) st.
Proof.
  unfold main, summary_path, bind.
  destruct (readFile host _ "utf8" st) as [[file| |] st1]; try reflexivity.
  destruct (await file st1) as [[text| |] st2]; try reflexivity.
  destruct (lift _ st2) as [[publishSummary| |] st3]; try reflexivity.
  destruct (Array_map _ _ st3) as [[promises| |] st4]; try reflexivity.
  destruct (Promise_all promises st4) as [[all| |] st5]; try reflexivity.
Qed.

(** A summary that cannot be read rejects [main] with the read error. *)
Lemma main_read_fails tag st e :
  fs_readFile host (summary_path host) "utf8" = inl e ->
  main host tag st
  = (Throw e,
     mkState (events st ++ [EvReadFile (summary_path host) "utf8"])
             (heap st ++ [mkPromise (Rejected e) true])).
Proof.
  intros H. rewrite main_unfold. unfold bind at 1.
  rewrite read_summary, H. reflexivity.
Qed.

(** A summary that is not JSON rejects [main] with the parse error. *)
Lemma main_parse_fails tag st text e :
  fs_readFile host (summary_path host) "utf8" = inr text ->
  JSON_parse host text = inl e ->
  main host tag st
  = (Throw e,
     mkState (events st ++ [EvReadFile (summary_path host) "utf8"])
             (heap st ++ [mkPromise (Fulfilled (VString text)) true])).
Proof.
  intros H P. rewrite main_unfold. unfold bind at 1.
  rewrite read_summary, H. unfold bind at 1. simpl. rewrite P. reflexivity.
Qed.

(** A summary whose entries all yield a command: [main] resolves with
    [undefined] once every command has been run. *)
Lemma main_run tag st text entries commands :
  fs_readFile host (summary_path host) "utf8" = inr text ->
  JSON_parse host text = inr (VArray entries) ->
  Forall2 (fun entry command => command_of tag entry = inr command)
          entries commands ->
  main host tag st
  = (Normal VUndefined,
     let st1 :=
       after_commands host
         (mkState (events st ++ [EvReadFile (summary_path host) "utf8"])
                  (heap st ++ [mkPromise (Fulfilled (VString text)) true]))
         commands in
     mkState (events st1)
             (heap st1 ++ [mkPromise (Fulfilled (VArray (repeat VUndefined (length entries))))
                                     true])).
Proof.
  intros H P F. rewrite main_unfold. unfold bind at 1.
  rewrite read_summary, H. unfold bind at 1. simpl lift. rewrite P. simpl.
  unfold bind at 1. rewrite (map_elements_run host tag entries commands _ F).
  unfold bind at 1. rewrite await_all_undefined. reflexivity.
Qed.

End Main.

(** ** Runs of the script *)

Lemma append_empty_r (s : string) : s ++ "" = s.
Proof. induction s as [|c s IH]; simpl; [reflexivity | rewrite IH; reflexivity]. Qed.

(** A well-formed entry yields the command line of the source. *)
Lemma command_of_entry t e v :
  entry_of e v -> command_of (VString t) v = inr (tagging_command t e).
Proof.
  intros (properties & -> & Hp & Hv).
  unfold command_of, tagging_command. simpl. rewrite Hp, Hv. simpl.
  rewrite append_empty_r. reflexivity.
Qed.

Lemma commands_of_entries t entries values :
  Forall2 entry_of entries values ->
  Forall2 (fun entry command => command_of (VString t) entry = inr command)
          values (map (tagging_command t) entries).
Proof.
  induction 1 as [|e v entries values He _ IH]; simpl; constructor.
  - apply command_of_entry, He.
  - exact IH.
Qed.

Section Runs.

Variable host : Host.

(** With a tag on the command line the module body comes down to the
    call of [main]. *)
Lemma script_with_tag t :
  program_tag host = Some t -> t <> "" ->
  script host
  = let (o, st) := main host (VString t) initial in
    let rejections :=
      (unhandled_rejections (heap st)
       ++ match o with Throw e => [e] | _ => [] end)%list in
    mkCompletion st (Some (promise_of o)) (hd_error rejections)
                 (match rejections with [] => 0 | _ :: _ => 1 end)%Z.
Proof.
  intros Ht Hne. unfold script. rewrite Ht. simpl.
  apply String.eqb_neq in Hne. rewrite Hne. reflexivity.
Qed.

(** The run over a summary whose entries all yield a command. *)
Lemma script_run t text entries commands :
  program_tag host = Some t -> t <> "" ->
  fs_readFile host (summary_path host) "utf8" = inr text ->
  JSON_parse host text = inr (VArray entries) ->
  Forall2 (fun entry command => command_of (VString t) entry = inr command)
          entries commands ->
  spawned (events (final (script host))) = commands
  /\ files_read (events (final (script host))) = [summary_path host]
  /\ main_promise (script host) = Some (Fulfilled VUndefined)
  /\ uncaught (script host) = hd_error (failures host 0 commands)
  /\ exit_status (script host)
     = match failures host 0 commands with [] => 0%Z | _ :: _ => 1%Z end.
Proof.
  intros Ht Hne Hr Hp Hc.
  rewrite (script_with_tag t Ht Hne).
  rewrite (main_run host (VString t) initial text entries commands Hr Hp Hc).
  cbv zeta. cbn [final main_promise uncaught exit_status events heap promise_of].
  rewrite app_nil_r, unhandled_rejections_app, unhandled_after_commands.
  rewrite spawned_after_commands, files_read_after_commands.
  cbn. rewrite app_nil_r.
  repeat split.
Qed.

End Runs.

(** ** The tag on the command line *)

(** C4.  Without a [--tag] flag, or with an empty tag, the run ends at
    once with the uncaught error [Required option `tag` not specified]
    and exit status 1: it is still in its initial state, so no file has
    been read and no command spawned, and [main] was never called. *)
Theorem missing_tag_fails_fast (host : Host) :
  program_tag host = None \/ program_tag host = Some "" ->
  script host
  = mkCompletion initial None
      (Some (mkExn Error "Required option `tag` not specified")) 1
  /\ files_read (events (final (script host))) = []
  /\ spawned (events (final (script host))) = []
  /\ exit_status (script host) <> 0%Z.
Proof.
  intros H.
  assert (E : script host
              = mkCompletion initial None
                  (Some (mkExn Error "Required option `tag` not specified")) 1).
  { unfold script. destruct H as [H|H]; rewrite H; reflexivity. }
  rewrite E. repeat split. simpl. discriminate.
Qed.

Lemma missing_tag_fails_fast_witness :
  script Example.untagged
  = mkCompletion initial None
      (Some (mkExn Error "Required option `tag` not specified")) 1
  /\ files_read (events (final (script Example.untagged))) = []
  /\ spawned (events (final (script Example.untagged))) = []
  /\ exit_status (script Example.untagged) <> 0%Z.
Proof.
  apply (missing_tag_fails_fast Example.untagged).
  left. reflexivity.
Defined.

(** ** One command per entry *)

(** C1, as the specification words it, at its own example: in the run
    over the two-entry summary with tag [latest], no command handed to
    the shell contains ["add dist-tag pkg-a@1.0.0 latest"]. *)
Lemma tagging_command_is_not_add_dist_tag :
  ~ exists command,
      In command (spawned (events (final (script Example.obliged))))
      /\ occurs_in (add_dist_tag_form "latest" (mkEntry "pkg-a" "1.0.0")) command
         = true.
Proof.
  intros (command & Hin & Hocc).
  vm_compute in Hin.
  destruct Hin as [<-|[<-|[]]]; vm_compute in Hocc; discriminate.
Qed.

(** C1 (amended).  For every summary array of entries
    [{packageName, version}] and every tag, the commands handed to the
    shell are, entry by entry, exactly
    ["npm dist-tag add <packageName>@<version> <tag>"]: one per entry, none
    missing, none twice, whatever the commands answer. *)
Theorem one_tagging_command_per_entry
  (host : Host) (t text : string)
  (entries : list PublishSummaryEntry) (values : list value) :
  program_tag host = Some t -> t <> "" ->
  fs_readFile host (summary_path host) "utf8" = inr text ->
  JSON_parse host text = inr (VArray values) ->
  Forall2 entry_of entries values ->
  spawned (events (final (script host))) = map (tagging_command t) entries.
Proof.
  intros Ht Hne Hr Hp He.
  apply (script_run host t text values (map (tagging_command t) entries)
                    Ht Hne Hr Hp (commands_of_entries t entries values He)).
Qed.

(** The example of the specification: two invocations, one for
    [pkg-a@1.0.0] and one for [pkg-b@2.3.1], each with tag [latest]. *)
Lemma one_tagging_command_per_entry_witness :
  spawned (events (final (script Example.obliged)))
  = ["npm dist-tag add pkg-a@1.0.0 latest";
     "npm dist-tag add pkg-b@2.3.1 latest"].
Proof.
  apply (one_tagging_command_per_entry Example.obliged
           "latest" Example.two_packages Example.two_entries Example.two_values).
  - reflexivity.
  - discriminate.
  - reflexivity.
  - reflexivity.
  - repeat constructor; eexists; repeat split.
Defined.

(** ** The summary file *)

(** C5.  When the summary cannot be read, or is read but is not JSON,
    [main] rejects with that very error, which nothing handles: the run
    ends with it as uncaught error, with exit status 1, and without a
    single command spawned. *)
Theorem unreadable_summary_fails_before_tagging (host : Host) (t : string) (e : exn) :
  program_tag host = Some t -> t <> "" ->
  fs_readFile host (summary_path host) "utf8" = inl e
  \/ (exists text, fs_readFile host (summary_path host) "utf8" = inr text
                   /\ JSON_parse host text = inl e) ->
  main_promise (script host) = Some (Rejected e)
  /\ uncaught (script host) = Some e
  /\ exit_status (script host) = 1%Z
  /\ spawned (events (final (script host))) = [].
Proof.
  intros Ht Hne H. rewrite (script_with_tag host t Ht Hne).
  destruct H as [Hr|(text & Hr & Hp)].
  - rewrite (main_read_fails host (VString t) initial e Hr).
    repeat split.
  - rewrite (main_parse_fails host (VString t) initial text e Hr Hp).
    repeat split.
Qed.

Lemma unreadable_summary_fails_before_tagging_witness :
  main_promise (script Example.truncated)
  = Some (Rejected (mkExn SyntaxError "Unexpected token in JSON"))
  /\ uncaught (script Example.truncated)
     = Some (mkExn SyntaxError "Unexpected token in JSON")
  /\ exit_status (script Example.truncated) = 1%Z
  /\ spawned (events (final (script Example.truncated))) = [].
Proof.
  apply (unreadable_summary_fails_before_tagging Example.truncated "latest").
  - reflexivity.
  - discriminate.
  - right. exists "[{". split; reflexivity.
Defined.

(** C6.  When the summary is the empty array, no command is spawned,
    [main] resolves, nothing is left uncaught and the exit status is 0. *)
Theorem empty_summary_exits_successfully (host : Host) (t text : string) :
  program_tag host = Some t -> t <> "" ->
  fs_readFile host (summary_path host) "utf8" = inr text ->
  JSON_parse host text = inr (VArray []) ->
  spawned (events (final (script host))) = []
  /\ main_promise (script host) = Some (Fulfilled VUndefined)
  /\ uncaught (script host) = None
  /\ exit_status (script host) = 0%Z.
Proof.
  intros Ht Hne Hr Hp.
  destruct (script_run host t text [] [] Ht Hne Hr Hp (Forall2_nil _))
    as (Hs & _ & Hm & Hu & Hx).
  repeat split; assumption.
Qed.

Lemma empty_summary_exits_successfully_witness :
  spawned (events (final (script Example.nothing_published))) = []
  /\ main_promise (script Example.nothing_published) = Some (Fulfilled VUndefined)
  /\ uncaught (script Example.nothing_published) = None
  /\ exit_status (script Example.nothing_published) = 0%Z.
Proof.
  apply (empty_summary_exits_successfully Example.nothing_published "latest" "[]").
  - reflexivity.
  - discriminate.
  - reflexivity.
  - reflexivity.
Defined.

(** ** Order of the spawns *)

Section Order.

Variable host : Host.

Lemma events_after_commands commands : forall st,
  exists tail,
    events (after_commands host st commands) = (events st ++ tail)%list
    /\ spawned tail = commands.
Proof.
  induction commands as [|c commands IH]; intros st; simpl.
  - exists []. rewrite app_nil_r. split; reflexivity.
  - destruct (IH (after_exec host st c)) as (tail & He & Hs).
    exists (execSync_events c (mkOptions "utf8" None)
              (child host (length (spawned (events st))) c) ++ tail)%list.
    split.
    + rewrite He. unfold after_exec. simpl. rewrite <- app_assoc. reflexivity.
    + rewrite spawned_app, spawned_execSync_events, Hs. reflexivity.
Qed.

(** A wait followed by a spawn is not a fan-out. *)
Lemma wait_before_spawn before command code after :
  spawned after <> [] ->
  spawns_without_waiting (before ++ EvClose command code :: after) = false.
Proof.
  intros H. induction before as [|e before IH]; simpl.
  - destruct (spawned after); [congruence | reflexivity].
  - destruct e; try exact IH.
    rewrite spawned_app. simpl.
    destruct (spawned before); simpl; [|reflexivity].
    destruct (spawned after); [congruence | reflexivity].
Qed.

Lemma script_events t text entries commands :
  program_tag host = Some t -> t <> "" ->
  fs_readFile host (summary_path host) "utf8" = inr text ->
  JSON_parse host text = inr (VArray entries) ->
  Forall2 (fun entry command => command_of (VString t) entry = inr command)
          entries commands ->
  events (final (script host))
  = events (after_commands host
              (mkState [EvReadFile (summary_path host) "utf8"]
                       [mkPromise (Fulfilled (VString text)) true])
              commands).
Proof.
  intros Ht Hne Hr Hp Hc.
  rewrite (script_with_tag host t Ht Hne).
  rewrite (main_run host (VString t) initial text entries commands Hr Hp Hc).
  reflexivity.
Qed.

End Order.

(** C2.  The specification has every spawn initiated without waiting
    for an earlier command to complete.  The source does wait: [exec] is
    [execSync] behind [promisify], and [execSync] returns only when the
    child has closed.  Over every summary of two entries or more, the
    run has waited for the first command to close before it spawns the
    second. *)
Theorem second_spawn_waits_for_first_close
  (host : Host) (t text : string) (first second : PublishSummaryEntry)
  (others : list PublishSummaryEntry) (values : list value) :
  program_tag host = Some t -> t <> "" ->
  fs_readFile host (summary_path host) "utf8" = inr text ->
  JSON_parse host text = inr (VArray values) ->
  Forall2 entry_of (first :: second :: others) values ->
  spawns_without_waiting (events (final (script host))) = false.
Proof.
  intros Ht Hne Hr Hp He.
  rewrite (script_events host t text values _ Ht Hne Hr Hp
             (commands_of_entries t _ values He)).
  set (st0 := mkState [EvReadFile (summary_path host) "utf8"]
                      [mkPromise (Fulfilled (VString text)) true]).
  change (map (tagging_command t) (first :: second :: others))
    with (tagging_command t first
          :: map (tagging_command t) (second :: others)).
  change (after_commands host st0
            (tagging_command t first :: map (tagging_command t) (second :: others)))
    with (after_commands host (after_exec host st0 (tagging_command t first))
            (map (tagging_command t) (second :: others))).
  destruct (events_after_commands host (map (tagging_command t) (second :: others))
              (after_exec host st0 (tagging_command t first)))
    as (tail & Hev & Hsp).
  rewrite Hev.
  set (r := child host (length (spawned (events st0))) (tagging_command t first)).
  set (copied := match stdio (mkOptions "utf8" None) with
                 | None => if String.eqb (stderr r) "" then []
                           else [EvStderr (stderr r)]
                 | Some _ => []
                 end).
  change (events (after_exec host st0 (tagging_command t first)) ++ tail)%list
    with ([EvReadFile (summary_path host) "utf8";
           EvSpawn (tagging_command t first)]
          ++ EvClose (tagging_command t first) (status r) :: (copied ++ tail))%list.
  apply wait_before_spawn.
  rewrite spawned_app, Hsp. simpl map.
  destruct (spawned copied); discriminate.
Qed.

Lemma second_spawn_waits_for_first_close_witness :
  events (final (script Example.obliged))
  = [EvReadFile "/repo/lerna-publish-summary.json" "utf8";
     EvSpawn "npm dist-tag add pkg-a@1.0.0 latest";
     EvClose "npm dist-tag add pkg-a@1.0.0 latest" 0;
     EvSpawn "npm dist-tag add pkg-b@2.3.1 latest";
     EvClose "npm dist-tag add pkg-b@2.3.1 latest" 0]
  /\ spawns_without_waiting (events (final (script Example.obliged))) = false.
Proof.
  split; [reflexivity|].
  apply (second_spawn_waits_for_first_close Example.obliged
           "latest" Example.two_packages
           (mkEntry "pkg-a" "1.0.0") (mkEntry "pkg-b" "2.3.1") []
           Example.two_values).
  - reflexivity.
  - discriminate.
  - reflexivity.
  - reflexivity.
  - repeat constructor; eexists; repeat split.
Defined.

(** ** Commands that fail *)

(** C3, as the specification words it, at an example: when the registry
    refuses the commands, the run over the two-entry summary ends with
    exit status 1 and the failure of the first command as its uncaught
    error, where the same run over an obliging registry ends with status
    0 and nothing uncaught; the child's standard error has been copied
    to the runner's as well. *)
Lemma failed_command_is_surfaced :
  exit_status (script Example.obliged) = 0%Z
  /\ uncaught (script Example.obliged) = None
  /\ exit_status (script Example.refused) = 1%Z
  /\ uncaught (script Example.refused)
     = Some (command_failed "npm dist-tag add pkg-a@1.0.0 latest"
                            (mkSpawnResult 1 "" "npm ERR! code E403"))
  /\ In (EvStderr "npm ERR! code E403") (events (final (script Example.refused))).
Proof.
  repeat split. simpl. auto.
Qed.

(** C3 (amended).  A command that fails changes nothing to the course of
    [main]: every entry still gets its command and [main] resolves with
    [undefined].  The script neither catches nor handles the failure;
    the rejected promise it leaves behind is raised by the host once
    [main] is done, so the run ends with the first failure as uncaught
    error and exit status 1, and with status 0 when no command failed. *)
Theorem command_failure_is_left_to_the_host
  (host : Host) (t text : string)
  (entries : list PublishSummaryEntry) (values : list value) :
  program_tag host = Some t -> t <> "" ->
  fs_readFile host (summary_path host) "utf8" = inr text ->
  JSON_parse host text = inr (VArray values) ->
  Forall2 entry_of entries values ->
  let commands := map (tagging_command t) entries in
  spawned (events (final (script host))) = commands
  /\ main_promise (script host) = Some (Fulfilled VUndefined)
  /\ uncaught (script host) = hd_error (failures host 0 commands)
  /\ exit_status (script host)
     = match failures host 0 commands with [] => 0%Z | _ :: _ => 1%Z end
  /\ (exit_status (script host) = 0%Z
      <-> forall i command,
            nth_error commands i = Some command ->
            status (child host i command) = 0%Z).
Proof.
  intros Ht Hne Hr Hp He commands.
  destruct (script_run host t text values commands Ht Hne Hr Hp
              (commands_of_entries t entries values He))
    as (Hs & _ & Hm & Hu & Hx).
  repeat split; try assumption.
  - intros H0. apply (proj1 (failures_nil_iff host commands 0)).
    rewrite H0 in Hx. destruct (failures host 0 commands); [reflexivity|discriminate].
  - intros Hall. rewrite Hx.
    rewrite (proj2 (failures_nil_iff host commands 0) Hall). reflexivity.
Qed.

Lemma command_failure_is_left_to_the_host_witness :
  spawned (events (final (script Example.refused)))
  = ["npm dist-tag add pkg-a@1.0.0 latest"; "npm dist-tag add pkg-b@2.3.1 latest"]
  /\ main_promise (script Example.refused) = Some (Fulfilled VUndefined)
  /\ uncaught (script Example.refused)
     = Some (command_failed "npm dist-tag add pkg-a@1.0.0 latest"
                            (mkSpawnResult 1 "" "npm ERR! code E403"))
  /\ exit_status (script Example.refused) = 1%Z.
Proof.
  destruct (command_failure_is_left_to_the_host Example.refused
              "latest" Example.two_packages Example.two_entries Example.two_values)
    as (Hs & Hm & Hu & Hx & _).
  - reflexivity.
  - discriminate.
  - reflexivity.
  - reflexivity.
  - repeat constructor; eexists; repeat split.
  - repeat split; assumption.
Defined.

(** ** What the callback hands to the shell *)



(** At the callback: nothing is checked about the fields of an object
    entry.  Whenever the two fields have a string conversion (a missing
    field always has one, the text [undefined]) the callback goes on to
    spawn exactly one command, with those texts in the place of the
    fields, and returns normally. *)
Theorem missing_field_is_interpolated_as_undefined
  (host : Host) (t p v : string) (properties : list (string * value)) (st : state) :
  interpolated properties "packageName" = inr p ->
  interpolated properties "version" = inr v ->
  fst (map_callback host (VString t) (VObject properties) st) = Normal VUndefined
  /\ spawned (events (snd (map_callback host (VString t) (VObject properties) st)))
     = (spawned (events st)
        ++ [("npm dist-tag add " ++ p ++ "@" ++ v ++ " " ++ t)%string])%list
  /\ (own_property properties "packageName" = None -> p = "undefined")
  /\ (own_property properties "version" = None -> v = "undefined").
Proof.
  unfold interpolated. intros Hp Hv.
  assert (Hc : command_of (VString t) (VObject properties)
               = inr ("npm dist-tag add " ++ p ++ "@" ++ v ++ " " ++ t)).
  { unfold command_of. simpl.
    destruct (own_property properties "packageName") as [x|];
      destruct (own_property properties "version") as [y|];
      simpl; try rewrite Hp; try rewrite Hv; simpl;
      try (injection Hp as <-); try (injection Hv as <-);
      try rewrite Hv; simpl;
      rewrite append_empty_r; reflexivity. }
  rewrite (map_callback_run host _ _ _ st Hc).
  repeat split.
  - apply spawned_after_exec.
  - intros E. rewrite E in Hp. congruence.
  - intros E. rewrite E in Hv. congruence.
Qed.

Lemma missing_field_is_interpolated_as_undefined_witness :
  fst (map_callback Example.obliged (VString "latest")
                    (VObject [("packageName", VString "pkg-a")]) initial)
  = Normal VUndefined
  /\ spawned (events (snd (map_callback Example.obliged (VString "latest")
                             (VObject [("packageName", VString "pkg-a")]) initial)))
     = ["npm dist-tag add pkg-a@undefined latest"].
Proof.
  destruct (missing_field_is_interpolated_as_undefined Example.obliged
              "latest" "pkg-a" "undefined"
              [("packageName", VString "pkg-a")] initial
              eq_refl eq_refl) as (Hr & Hs & _).
  split; [exact Hr | exact Hs].
Defined.

(** A field that is there but is no string goes through its own string
    conversion: [null] reads [null]. *)
Lemma null_field_is_interpolated_as_null :
  spawned (events (snd (map_callback Example.obliged (VString "latest")
                          (VObject [("packageName", VNull);
                                    ("version", VString "1.0.0")]) initial)))
  = ["npm dist-tag add null@1.0.0 latest"].
Proof. reflexivity. Qed.

(** The one conversion that fails is that of an object (or of an array
    holding one) with a [toString] property of its own: the callback
    throws before it gets to [exec]. *)
Lemma unconvertible_field_throws :
  map_callback Example.obliged (VString "latest")
    (VObject [("packageName", VObject [("toString", VNull)]);
              ("version", VString "1.0.0")]) initial
  = (Throw (mkExn TypeError "Cannot convert object to primitive value"), initial).
Proof. reflexivity. Qed.

(** ** The one file that is read *)

Section Reads.

Variable host : Host.














End Reads.

(** ** The promises nobody waits for *)

Section Discarded.

Variable host : Host.

Lemma map_callback_returns_undefined tag entry st v st' :
  map_callback host tag entry st = (Normal v, st') -> v = VUndefined.
Proof.
  destruct (command_of tag entry) as [e|command] eqn:E.
  - rewrite (map_callback_throws host tag entry e st E). discriminate.
  - rewrite (map_callback_run host tag entry command st E). congruence.
Qed.

Lemma map_elements_returns_undefined tag l : forall st promises st',
  map_elements (map_callback host tag) l st = (Normal promises, st') ->
  promises = repeat VUndefined (length l).
Proof.
  induction l as [|x l IH]; intros st promises st'; simpl.
  - unfold ret. congruence.
  - unfold bind at 1.
    destruct (map_callback host tag x st) as [[y| |] st1] eqn:Hx; try discriminate.
    apply map_callback_returns_undefined in Hx. subst y.
    unfold bind at 1.
    destruct (map_elements (map_callback host tag) l st1) as [[ys| |] st2] eqn:Hl;
      try discriminate.
    apply IH in Hl. subst ys. unfold ret. congruence.
Qed.

Lemma script_heap t text entries commands :
  program_tag host = Some t -> t <> "" ->
  fs_readFile host (summary_path host) "utf8" = inr text ->
  JSON_parse host text = inr (VArray entries) ->
  Forall2 (fun entry command => command_of (VString t) entry = inr command)
          entries commands ->
  heap (final (script host))
  = (heap (after_commands host
             (mkState [EvReadFile (summary_path host) "utf8"]
                      [mkPromise (Fulfilled (VString text)) true])
             commands)
     ++ [mkPromise (Fulfilled (VArray (repeat VUndefined (length entries)))) true])%list.
Proof.
  intros Ht Hne Hr Hp Hc.
  rewrite (script_with_tag host t Ht Hne).
  rewrite (main_run host (VString t) initial text entries commands Hr Hp Hc).
  reflexivity.
Qed.

End Discarded.

(** What holds of the promises of [exec].  The callback drops the
    promise it gets from [exec]: whenever it
    returns, it returns [undefined], so the array [main] hands to
    [Promise.all] holds nothing but [undefined].  Over a summary of
    well-formed entries [main] therefore resolves with [undefined]
    whatever the commands answer, and the promises made by [exec], one
    per entry, stay where they were left: none fulfilled, none with a
    reaction attached, between the promise of the file and the promise
    of [Promise.all]. *)
Theorem exec_promise_is_discarded
  (host : Host) (t text : string)
  (entries : list PublishSummaryEntry) (values : list value) :
  (forall tag entry st v st',
      map_callback host tag entry st = (Normal v, st') -> v = VUndefined)
  /\ (forall tag receiver st promises st',
         Array_map receiver (map_callback host tag) st = (Normal promises, st') ->
         promises = repeat VUndefined (length promises))
  /\ (program_tag host = Some t -> t <> "" ->
      fs_readFile host (summary_path host) "utf8" = inr text ->
      JSON_parse host text = inr (VArray values) ->
      Forall2 entry_of entries values ->
      main_promise (script host) = Some (Fulfilled VUndefined)
      /\ exists created,
           heap (final (script host))
           = (mkPromise (Fulfilled (VString text)) true
              :: created
              ++ [mkPromise (Fulfilled (VArray (repeat VUndefined (length entries))))
                            true])%list
           /\ length created = length entries
           /\ Forall (fun p => handled p = false
                               /\ forall v, settlement p <> Fulfilled v) created).
Proof.
  split; [|split].
  - intros tag entry st v st'. apply map_callback_returns_undefined.
  - intros tag receiver st promises st' H.
    destruct receiver; simpl in H; try discriminate.
    pose proof (map_elements_returns_undefined host tag _ _ _ _ H) as E.
    rewrite E at 1. rewrite E, repeat_length. reflexivity.
  - intros Ht Hne Hr Hp He.
    pose proof (commands_of_entries t entries values He) as Hc.
    destruct (script_run host t text values _ Ht Hne Hr Hp Hc)
      as (_ & _ & Hm & _).
    split; [exact Hm|].
    rewrite (script_heap host t text values _ Ht Hne Hr Hp Hc).
    match goal with
    | |- context [after_commands host ?st ?l] =>
        destruct (heap_after_commands host l st) as (created & Hh & Hl & Hf)
    end.
    exists created. rewrite Hh. simpl.
    rewrite length_map in Hl.
    rewrite <- (Forall2_length He).
    repeat split; assumption.
Qed.

Lemma exec_promise_is_discarded_witness :
  main_promise (script Example.refused) = Some (Fulfilled VUndefined)
  /\ exists created,
       heap (final (script Example.refused))
       = (mkPromise (Fulfilled (VString Example.two_packages)) true
          :: created
          ++ [mkPromise (Fulfilled (VArray [VUndefined; VUndefined])) true])%list
       /\ length created = 2
       /\ Forall (fun p => handled p = false
                           /\ forall v, settlement p <> Fulfilled v) created.
Proof.
  apply (proj2 (proj2 (exec_promise_is_discarded Example.refused
           "latest" Example.two_packages Example.two_entries Example.two_values))).
  - reflexivity.
  - discriminate.
  - reflexivity.
  - reflexivity.
  - repeat constructor; eexists; repeat split.
Defined.

(** * Every run, whatever the summary *)

Section Walk.

Variable host : Host.

Lemma Array_map_not_array receiver callback st :
  (forall entries, receiver <> VArray entries) ->
  Array_map receiver callback st = (Throw (map_type_error receiver), st).
Proof.
  intros H. destruct receiver; try reflexivity.
  exfalso. apply (H elements). reflexivity.
Qed.

(** The loop stops at the first entry that yields no command. *)
Lemma map_elements_walk tag entries : forall st,
  map_elements (map_callback host tag) entries st
  = (match snd (commands_until_error tag entries) with
     | None => Normal (repeat VUndefined (length entries))
     | Some e => Throw e
     end,
     after_commands host st (fst (commands_until_error tag entries))).
Proof.
  induction entries as [|entry entries IH]; intros st; simpl.
  - reflexivity.
  - destruct (command_of tag entry) as [e|command] eqn:E.
    + unfold bind. rewrite (map_callback_throws host tag entry e st E). reflexivity.
    + unfold bind at 1. rewrite (map_callback_run host tag entry command st E).
      unfold bind at 1. rewrite IH.
      destruct (commands_until_error tag entries) as [commands [e|]]; reflexivity.
Qed.

Lemma events_after_commands_trace commands : forall st,
  events (after_commands host st commands)
  = (events st ++ commands_trace host (length (spawned (events st))) commands)%list.
Proof.
  induction commands as [|c commands IH]; intros st.
  - simpl. rewrite app_nil_r. reflexivity.
  - cbn [after_commands commands_trace].
    rewrite IH, spawned_after_exec, length_app. cbn [length]. rewrite Nat.add_1_r.
    unfold after_exec. cbn [events]. rewrite <- app_assoc. reflexivity.
Qed.

Lemma spawned_commands_trace commands : forall n,
  spawned (commands_trace host n commands) = commands.
Proof.
  induction commands as [|c commands IH]; intros n; [reflexivity|].
  cbn [commands_trace].
  rewrite spawned_app, spawned_execSync_events, IH. reflexivity.
Qed.

Lemma files_read_commands_trace commands : forall n,
  files_read (commands_trace host n commands) = [].
Proof.
  induction commands as [|c commands IH]; intros n; [reflexivity|].
  cbn [commands_trace].
  rewrite files_read_app, files_read_execSync_events, IH. reflexivity.
Qed.

(** A summary that is no array rejects [main] before the loop. *)
Lemma main_not_array tag st text publishSummary :
  fs_readFile host (summary_path host) "utf8" = inr text ->
  JSON_parse host text = inr publishSummary ->
  (forall entries, publishSummary <> VArray entries) ->
  main host tag st
  = (Throw (map_type_error publishSummary),
     mkState (events st ++ [EvReadFile (summary_path host) "utf8"])
             (heap st ++ [mkPromise (Fulfilled (VString text)) true])).
Proof.
  intros Hr Hp Hn. rewrite main_unfold. unfold bind at 1.
  rewrite read_summary, Hr. unfold bind at 1. simpl lift. rewrite Hp. simpl.
  unfold bind. rewrite (Array_map_not_array _ _ _ Hn). reflexivity.
Qed.

(** Over an array, [main] runs the commands of the entries up to the
    first that yields none, and rejects with the error of that one. *)
Lemma main_over_array tag st text entries :
  fs_readFile host (summary_path host) "utf8" = inr text ->
  JSON_parse host text = inr (VArray entries) ->
  main host tag st
  = (match snd (commands_until_error tag entries) with
     | None => Normal VUndefined
     | Some e => Throw e
     end,
     let st2 :=
       after_commands host
         (mkState (events st ++ [EvReadFile (summary_path host) "utf8"])
                  (heap st ++ [mkPromise (Fulfilled (VString text)) true]))
         (fst (commands_until_error tag entries)) in
     match snd (commands_until_error tag entries) with
     | None =>
         mkState (events st2)
                 (heap st2
                  ++ [mkPromise (Fulfilled (VArray (repeat VUndefined (length entries))))
                                true])
     | Some _ => st2
     end).
Proof.
  intros Hr Hp. rewrite main_unfold. unfold bind at 1.
  rewrite read_summary, Hr. unfold bind at 1. simpl lift. rewrite Hp.
  unfold lift, ret. cbv beta iota.
  unfold bind at 1. cbn [Array_map]. rewrite map_elements_walk.
  destruct (commands_until_error tag entries) as [commands [e|]]; simpl fst; simpl snd.
  - reflexivity.
  - cbv beta iota. unfold bind at 1. rewrite await_all_undefined. reflexivity.
Qed.

(** [main] over any summary: it gets as far as the plan says. *)
Lemma main_follows_plan t st :
  let st0 := mkState (events st ++ [EvReadFile (summary_path host) "utf8"])
                     (heap st) in
  fst (main host (VString t) st)
  = match snd (plan host t) with
    | None => Normal VUndefined
    | Some e => Throw e
    end
  /\ events (snd (main host (VString t) st))
     = events (after_commands host st0 (fst (plan host t)))
  /\ unhandled_rejections (heap (snd (main host (VString t) st)))
     = unhandled_rejections (heap (after_commands host st0 (fst (plan host t)))).
Proof.
  intros st0. unfold plan.
  destruct (fs_readFile host (summary_path host) "utf8") as [e|text] eqn:Hr.
  - rewrite (main_read_fails host (VString t) st e Hr). simpl.
    rewrite !unhandled_rejections_app. simpl. rewrite app_nil_r. repeat split.
  - set (st1 := mkState (events st ++ [EvReadFile (summary_path host) "utf8"])
                        (heap st ++ [mkPromise (Fulfilled (VString text)) true])).
    assert (Hev : forall commands,
               events (after_commands host st1 commands)
               = events (after_commands host st0 commands)).
    { intros commands. rewrite !events_after_commands_trace. reflexivity. }
    assert (Hun : forall commands,
               unhandled_rejections (heap (after_commands host st1 commands))
               = unhandled_rejections (heap (after_commands host st0 commands))).
    { intros commands. rewrite !unhandled_after_commands. unfold st1, st0. simpl.
      rewrite unhandled_rejections_app. simpl. rewrite app_nil_r. reflexivity. }
    destruct (JSON_parse host text) as [e|publishSummary] eqn:Hp.
    + rewrite (main_parse_fails host (VString t) st text e Hr Hp). simpl.
      rewrite !unhandled_rejections_app. simpl. rewrite app_nil_r. repeat split.
    + destruct publishSummary;
        try (rewrite (main_not_array (VString t) st text _ Hr Hp)
               by (intros l; discriminate);
             simpl; repeat split; apply (Hun [])).
      rewrite (main_over_array (VString t) st text elements Hr Hp).
      fold st1.
      destruct (commands_until_error (VString t) elements) as [commands [e|]];
        simpl fst; simpl snd; cbv zeta.
      * repeat split; [apply Hev | apply Hun].
      * cbn [events heap]. rewrite unhandled_rejections_app. simpl.
        rewrite app_nil_r. repeat split; [apply Hev | apply Hun].
Qed.

(** The whole of a run, heap apart: nothing without a tag; with a tag,
    the read, then the planned commands one by one. *)
Lemma script_follows_plan :
  match program_tag host with
  | None | Some EmptyString =>
      script host
      = mkCompletion initial None
          (Some (mkExn Error "Required option `tag` not specified")) 1
  | Some t =>
      events (final (script host))
      = EvReadFile (summary_path host) "utf8"
        :: commands_trace host 0 (fst (plan host t))
      /\ main_promise (script host)
         = Some (match snd (plan host t) with
                 | None => Fulfilled VUndefined
                 | Some e => Rejected e
                 end)
      /\ uncaught (script host)
         = hd_error (failures host 0 (fst (plan host t))
                     ++ option_to_list (snd (plan host t)))
      /\ exit_status (script host)
         = match (failures host 0 (fst (plan host t))
                  ++ option_to_list (snd (plan host t)))%list with
           | [] => 0%Z
           | _ :: _ => 1%Z
           end
  end.
Proof.
  destruct (program_tag host) as [t|] eqn:Ht; [|unfold script; rewrite Ht; reflexivity].
  destruct t as [|c t']; [unfold script; rewrite Ht; reflexivity|].
  set (t := String c t').
  assert (Hne : t <> "") by discriminate.
  rewrite (script_with_tag host t Ht Hne).
  destruct (main_follows_plan t initial) as (Ho & He & Hu).
  destruct (main host (VString t) initial) as [o st] eqn:Hm.
  simpl in Ho, He, Hu. cbv zeta.
  cbn [final main_promise uncaught exit_status].
  rewrite He, Hu, events_after_commands_trace, unhandled_after_commands. simpl.
  subst o.
  destruct (snd (plan host t)) as [e|]; simpl; repeat split.
Qed.

End Walk.

Section Plans.

Variable host : Host.

Lemma script_with_plan t :
  program_tag host = Some t -> t <> "" ->
  events (final (script host))
  = EvReadFile (summary_path host) "utf8"
    :: commands_trace host 0 (fst (plan host t))
  /\ main_promise (script host)
     = Some (match snd (plan host t) with
             | None => Fulfilled VUndefined
             | Some e => Rejected e
             end)
  /\ uncaught (script host)
     = hd_error (failures host 0 (fst (plan host t))
                 ++ option_to_list (snd (plan host t)))
  /\ exit_status (script host)
     = match (failures host 0 (fst (plan host t))
              ++ option_to_list (snd (plan host t)))%list with
       | [] => 0%Z
       | _ :: _ => 1%Z
       end.
Proof.
  intros Ht Hne. pose proof (script_follows_plan host) as H.
  rewrite Ht in H. destruct t; [congruence | exact H].
Qed.

Lemma script_without_tag :
  program_tag host = None \/ program_tag host = Some "" ->
  script host
  = mkCompletion initial None
      (Some (mkExn Error "Required option `tag` not specified")) 1.
Proof.
  intros H. pose proof (script_follows_plan host) as E.
  destruct H as [H|H]; rewrite H in E; exact E.
Qed.

Lemma tag_cases :
  (program_tag host = None \/ program_tag host = Some "")
  \/ exists t, program_tag host = Some t /\ t <> "".
Proof.
  destruct (program_tag host) as [t|]; [|left; left; reflexivity].
  destruct t as [|c t]; [left; right; reflexivity|].
  right. exists (String c t). split; [reflexivity | discriminate].
Qed.

Lemma spawned_script_with_tag t :
  program_tag host = Some t -> t <> "" ->
  spawned (events (final (script host))) = fst (plan host t).
Proof.
  intros Ht Hne. destruct (script_with_plan t Ht Hne) as (He & _).
  rewrite He. simpl. apply spawned_commands_trace.
Qed.

End Plans.

(** The walk over entries that all yield a command, followed by more. *)
Lemma commands_until_error_app tag before commands rest :
  Forall2 (fun entry command => command_of tag entry = inr command)
          before commands ->
  commands_until_error tag (before ++ rest)
  = ((commands ++ fst (commands_until_error tag rest))%list,
     snd (commands_until_error tag rest)).
Proof.
  induction 1 as [|entry command before commands Hc _ IH]; simpl.
  - destruct (commands_until_error tag rest); reflexivity.
  - rewrite Hc, IH. reflexivity.
Qed.

Lemma commands_until_error_complete tag entries :
  snd (commands_until_error tag entries) = None ->
  Forall2 (fun entry command => command_of tag entry = inr command)
          entries (fst (commands_until_error tag entries)).
Proof.
  induction entries as [|entry entries IH]; simpl; [constructor|].
  destruct (command_of tag entry) as [e|command] eqn:E; simpl; [discriminate|].
  destruct (commands_until_error tag entries) as [commands failure].
  simpl in *. intros H. constructor; [exact E | apply IH, H].
Qed.

Lemma commands_until_error_length tag entries :
  length (fst (commands_until_error tag entries)) <= length entries.
Proof.
  induction entries as [|entry entries IH]; simpl; [lia|].
  destruct (command_of tag entry); simpl; [lia|].
  destruct (commands_until_error tag entries). simpl in *. lia.
Qed.

Lemma prefix_append (p s : string) : String.prefix p (p ++ s) = true.
Proof.
  induction p as [|a p IH]; simpl; [destruct s; reflexivity|].
  destruct (ascii_dec a a); [exact IH | congruence].
Qed.

Lemma command_of_prefix tag entry command :
  command_of tag entry = inr command ->
  String.prefix "npm dist-tag add " command = true.
Proof.
  unfold command_of.
  destruct (get_property entry "packageName") as [e|p]; simpl; [discriminate|].
  destruct (get_property entry "version") as [e|v]; simpl; [discriminate|].
  destruct (ToString p) as [e|sp]; simpl; [discriminate|].
  destruct (ToString v) as [e|sv]; simpl; [discriminate|].
  destruct (ToString tag) as [e|stag]; simpl; [discriminate|].
  intros H. injection H as <-.
  apply (prefix_append "npm dist-tag add " (sp ++ "@" ++ sv ++ " " ++ stag ++ "")).
Qed.

Lemma commands_until_error_prefix tag entries :
  Forall (fun command => String.prefix "npm dist-tag add " command = true)
         (fst (commands_until_error tag entries)).
Proof.
  induction entries as [|entry entries IH]; simpl; [constructor|].
  destruct (command_of tag entry) as [e|command] eqn:E; simpl; [constructor|].
  destruct (commands_until_error tag entries) as [commands failure].
  simpl in *. constructor; [exact (command_of_prefix _ _ _ E) | exact IH].
Qed.

Lemma plan_prefix host t :
  Forall (fun command => String.prefix "npm dist-tag add " command = true)
         (fst (plan host t)).
Proof.
  unfold plan.
  destruct (fs_readFile host (summary_path host) "utf8"); [constructor|].
  destruct (JSON_parse host s) as [e|v]; [constructor|].
  destruct v; try constructor. apply commands_until_error_prefix.
Qed.

Lemma one_child_commands_trace host commands : forall n,
  one_child_at_a_time (commands_trace host n commands) = true.
Proof.
  induction commands as [|c commands IH]; intros n; [reflexivity|].
  cbn [commands_trace]. unfold execSync_events. simpl.
  rewrite String.eqb_refl. simpl.
  destruct (String.eqb (stderr (child host n c)) ""); simpl; apply IH.
Qed.

(** ** The tag check *)

(** X1.  The check on the tag lets through every tag that is a non-empty
    string, whatever it reads, and nothing else: [main] is left uncalled
    exactly when the flag is absent or its argument is empty. *)
Theorem only_a_missing_or_empty_tag_is_refused (host : Host) :
  main_promise (script host) = None
  <-> program_tag host = None \/ program_tag host = Some "".
Proof.
  split.
  - intros H. destruct (tag_cases host) as [Hm|(t & Ht & Hne)]; [exact Hm|].
    destruct (script_with_plan host t Ht Hne) as (_ & Hp & _).
    rewrite Hp in H. discriminate.
  - intros H. rewrite (script_without_tag host H). reflexivity.
Qed.

(** A tag that reads [0] is a tag. *)
Lemma tag_zero_is_accepted :
  spawned (events (final (script Sample.tagged_zero)))
  = ["npm dist-tag add pkg-a@1.0.0 0"; "npm dist-tag add pkg-b@2.3.1 0"].
Proof. reflexivity. Qed.

(** ** What every run does and never does *)

(** X2.  In a run that has a tag, the first thing done is to ask for
    the summary, in [utf8]; no file is asked for after that. *)
Theorem summary_is_read_first (host : Host) (t : string) :
  program_tag host = Some t -> t <> "" ->
  exists tail,
    events (final (script host))
    = EvReadFile (summary_path host) "utf8" :: tail
    /\ files_read tail = [].
Proof.
  intros Ht Hne. destruct (script_with_plan host t Ht Hne) as (He & _).
  exists (commands_trace host 0 (fst (plan host t))).
  split; [exact He | apply files_read_commands_trace].
Qed.

Lemma summary_is_read_first_witness :
  exists tail,
    events (final (script Example.refused))
    = EvReadFile "/repo/lerna-publish-summary.json" "utf8" :: tail
    /\ files_read tail = [].
Proof.
  apply (summary_is_read_first Example.refused "latest").
  - reflexivity.
  - discriminate.
Defined.

(** X3.  Whatever the host, every command a run hands to the shell
    starts with ["npm dist-tag add "]. *)
Theorem every_command_is_npm_dist_tag_add (host : Host) :
  Forall (fun command => String.prefix "npm dist-tag add " command = true)
         (spawned (events (final (script host)))).
Proof.
  destruct (tag_cases host) as [Hm|(t & Ht & Hne)].
  - rewrite (script_without_tag host Hm). constructor.
  - rewrite (spawned_script_with_tag host t Ht Hne). apply plan_prefix.
Qed.

(** X4.  Whatever the host, a run has at most one child at a time:
    each spawn is followed at once by the wait for that command to
    close. *)
Theorem run_has_one_child_at_a_time (host : Host) :
  one_child_at_a_time (events (final (script host))) = true.
Proof.
  destruct (tag_cases host) as [Hm|(t & Ht & Hne)].
  - rewrite (script_without_tag host Hm). reflexivity.
  - destruct (script_with_plan host t Ht Hne) as (He & _).
    rewrite He. simpl. apply one_child_commands_trace.
Qed.

(** X5.  Which commands a run issues, and how [main] ends, owes nothing
    to what the commands answer: two hosts that differ in the fate of
    the children only issue the same commands and settle [main] alike. *)
Theorem commands_do_not_depend_on_the_registry (h1 h2 : Host) :
  program_tag h1 = program_tag h2 ->
  import_meta_url h1 = import_meta_url h2 ->
  fs_readFile h1 = fs_readFile h2 ->
  JSON_parse h1 = JSON_parse h2 ->
  spawned (events (final (script h1))) = spawned (events (final (script h2)))
  /\ main_promise (script h1) = main_promise (script h2).
Proof.
  intros Ht Hu Hf Hj.
  assert (Hplan : forall t, plan h1 t = plan h2 t).
  { intros t. unfold plan, summary_path. rewrite Hu, Hf, Hj. reflexivity. }
  destruct (tag_cases h1) as [Hm|(t & Ht1 & Hne)].
  - assert (Hm2 : program_tag h2 = None \/ program_tag h2 = Some "")
      by (rewrite <- Ht; exact Hm).
    rewrite (script_without_tag h1 Hm), (script_without_tag h2 Hm2).
    split; reflexivity.
  - assert (Ht2 : program_tag h2 = Some t) by (rewrite <- Ht; exact Ht1).
    rewrite (spawned_script_with_tag h1 t Ht1 Hne),
            (spawned_script_with_tag h2 t Ht2 Hne).
    destruct (script_with_plan h1 t Ht1 Hne) as (_ & Hp1 & _).
    destruct (script_with_plan h2 t Ht2 Hne) as (_ & Hp2 & _).
    rewrite Hp1, Hp2, Hplan. split; reflexivity.
Qed.

Lemma commands_do_not_depend_on_the_registry_witness :
  spawned (events (final (script Example.obliged)))
  = spawned (events (final (script Example.refused)))
  /\ main_promise (script Example.obliged) = main_promise (script Example.refused).
Proof.
  apply (commands_do_not_depend_on_the_registry Example.obliged Example.refused);
    reflexivity.
Defined.

(** X6.  A run never spawns more commands than the summary array has
    entries. *)
Theorem never_more_commands_than_entries
  (host : Host) (text : string) (entries : list value) :
  fs_readFile host (summary_path host) "utf8" = inr text ->
  JSON_parse host text = inr (VArray entries) ->
  length (spawned (events (final (script host)))) <= length entries.
Proof.
  intros Hr Hp.
  destruct (tag_cases host) as [Hm|(t & Ht & Hne)].
  - rewrite (script_without_tag host Hm). simpl. lia.
  - rewrite (spawned_script_with_tag host t Ht Hne).
    unfold plan. rewrite Hr, Hp. apply commands_until_error_length.
Qed.

Lemma never_more_commands_than_entries_witness :
  length (spawned (events (final (script Sample.interrupted)))) <= 3.
Proof.
  apply (never_more_commands_than_entries Sample.interrupted Sample.null_between
           [VObject [("packageName", VString "pkg-a"); ("version", VString "1.0.0")];
            VNull;
            VObject [("packageName", VString "pkg-b"); ("version", VString "2.3.1")]]);
    reflexivity.
Defined.

(** ** Summaries that are not what they should be *)

(** X7.  An entry that yields no command ([null], or a field with no
    string conversion) ends the loop where it stands: the entries before
    it have had their commands, the entries after it get none, and
    [main] rejects with the error of that entry.  The run ends with
    status 1; the uncaught error is that of the first command that
    failed, if one did, and of the entry otherwise. *)
Theorem entry_without_command_ends_the_loop
  (host : Host) (t text : string) (before after : list value) (entry : value)
  (commands : list string) (e : exn) :
  program_tag host = Some t -> t <> "" ->
  fs_readFile host (summary_path host) "utf8" = inr text ->
  JSON_parse host text = inr (VArray (before ++ entry :: after)) ->
  Forall2 (fun x command => command_of (VString t) x = inr command)
          before commands ->
  command_of (VString t) entry = inl e ->
  spawned (events (final (script host))) = commands
  /\ main_promise (script host) = Some (Rejected e)
  /\ uncaught (script host) = hd_error (failures host 0 commands ++ [e])
  /\ exit_status (script host) = 1%Z.
Proof.
  intros Ht Hne Hr Hp Hb He.
  assert (Hplan : plan host t = (commands, Some e)).
  { unfold plan. rewrite Hr, Hp.
    rewrite (commands_until_error_app (VString t) before commands _ Hb).
    simpl. rewrite He. simpl. rewrite app_nil_r. reflexivity. }
  rewrite (spawned_script_with_tag host t Ht Hne).
  destruct (script_with_plan host t Ht Hne) as (_ & Hm & Hu & Hx).
  rewrite Hm, Hu, Hx, Hplan. simpl.
  repeat split.
  destruct (failures host 0 commands); reflexivity.
Qed.

Lemma entry_without_command_ends_the_loop_witness :
  spawned (events (final (script Sample.interrupted)))
  = ["npm dist-tag add pkg-a@1.0.0 latest"]
  /\ main_promise (script Sample.interrupted)
     = Some (Rejected (mkExn TypeError "Cannot destructure property 'packageName'"))
  /\ uncaught (script Sample.interrupted)
     = Some (command_failed "npm dist-tag add pkg-a@1.0.0 latest"
                            (mkSpawnResult 1 "" "npm ERR! code E403"))
  /\ exit_status (script Sample.interrupted) = 1%Z.
Proof.
  apply (entry_without_command_ends_the_loop Sample.interrupted
           "latest" Sample.null_between
           [VObject [("packageName", VString "pkg-a"); ("version", VString "1.0.0")]]
           [VObject [("packageName", VString "pkg-b"); ("version", VString "2.3.1")]]
           VNull
           ["npm dist-tag add pkg-a@1.0.0 latest"]).
  - reflexivity.
  - discriminate.
  - reflexivity.
  - reflexivity.
  - repeat constructor.
  - reflexivity.
Defined.

(** X8.  A summary that is valid JSON but no array is not looped over:
    calling [map] on it is a TypeError, [main] rejects with it, no
    command is spawned and the run ends with status 1. *)
Theorem summary_that_is_no_array_is_a_type_error
  (host : Host) (t text : string) (publishSummary : value) :
  program_tag host = Some t -> t <> "" ->
  fs_readFile host (summary_path host) "utf8" = inr text ->
  JSON_parse host text = inr publishSummary ->
  (forall entries, publishSummary <> VArray entries) ->
  spawned (events (final (script host))) = []
  /\ main_promise (script host) = Some (Rejected (map_type_error publishSummary))
  /\ kind (map_type_error publishSummary) = TypeError
  /\ uncaught (script host) = Some (map_type_error publishSummary)
  /\ exit_status (script host) = 1%Z.
Proof.
  intros Ht Hne Hr Hp Hn.
  assert (Hplan : plan host t = ([], Some (map_type_error publishSummary))).
  { unfold plan. rewrite Hr, Hp.
    destruct publishSummary; try reflexivity.
    exfalso. apply (Hn elements). reflexivity. }
  rewrite (spawned_script_with_tag host t Ht Hne).
  destruct (script_with_plan host t Ht Hne) as (_ & Hm & Hu & Hx).
  rewrite Hm, Hu, Hx, Hplan. simpl.
  repeat split. destruct publishSummary; reflexivity.
Qed.

Lemma summary_that_is_no_array_is_a_type_error_witness :
  spawned (events (final (script Sample.keyed))) = []
  /\ main_promise (script Sample.keyed)
     = Some (Rejected (mkExn TypeError "publishSummary.map is not a function"))
  /\ kind (mkExn TypeError "publishSummary.map is not a function") = TypeError
  /\ uncaught (script Sample.keyed)
     = Some (mkExn TypeError "publishSummary.map is not a function")
  /\ exit_status (script Sample.keyed) = 1%Z.
Proof.
  apply (summary_that_is_no_array_is_a_type_error Sample.keyed "latest" "{}"
           (VObject [])).
  - reflexivity.
  - discriminate.
  - reflexivity.
  - reflexivity.
  - intros entries. discriminate.
Defined.

(** X9.  A run ends with status 0 in one case only: there is a
    non-empty tag, the summary can be read and is a JSON array, every
    entry yields a command, and every command closes with status 0. *)
Theorem run_succeeds_exactly_when_all_is_well (host : Host) :
  exit_status (script host) = 0%Z
  <-> exists t text entries commands,
        program_tag host = Some t /\ t <> ""
        /\ fs_readFile host (summary_path host) "utf8" = inr text
        /\ JSON_parse host text = inr (VArray entries)
        /\ Forall2 (fun entry command => command_of (VString t) entry = inr command)
                   entries commands
        /\ forall i command,
             nth_error commands i = Some command ->
             status (child host i command) = 0%Z.
Proof.
  split.
  - intros H0.
    destruct (tag_cases host) as [Hm|(t & Ht & Hne)].
    { rewrite (script_without_tag host Hm) in H0. discriminate. }
    destruct (script_with_plan host t Ht Hne) as (_ & _ & _ & Hx).
    rewrite Hx in H0.
    destruct (failures host 0 (fst (plan host t))) as [|f fs] eqn:Hf;
      [|discriminate].
    destruct (snd (plan host t)) as [e|] eqn:Hs; [discriminate|].
    unfold plan in Hf, Hs.
    destruct (fs_readFile host (summary_path host) "utf8") as [e|text] eqn:Hr;
      [discriminate|].
    destruct (JSON_parse host text) as [e|publishSummary] eqn:Hp; [discriminate|].
    destruct publishSummary; try discriminate.
    exists t, text, elements, (fst (commands_until_error (VString t) elements)).
    repeat split; try assumption.
    + apply commands_until_error_complete, Hs.
    + apply (proj1 (failures_nil_iff host _ 0) Hf).
  - intros (t & text & entries & commands & Ht & Hne & Hr & Hp & Hc & Hall).
    destruct (script_run host t text entries commands Ht Hne Hr Hp Hc)
      as (_ & _ & _ & _ & Hx).
    rewrite Hx, (proj2 (failures_nil_iff host commands 0) Hall). reflexivity.
Qed.

(** ** The wrapper around [execSync] *)

(** X10.  [exec] never throws, whatever the command, the options and
    the fate of the child: it waits for the command and returns a new
    promise nobody has touched, rejected with the error of [execSync]
    when the status is not 0 and pending for ever when it is, so that
    the output of the command is lost. *)
Theorem exec_returns_a_promise_that_never_fulfils
  (host : Host) (command : string) (options : exec_options) (st : state) :
  let r := child host (length (spawned (events st))) command in
  exec host command options st
  = (Normal (VPromise (length (heap st))),
     mkState (events st ++ execSync_events command options r)
             (heap st
              ++ [mkPromise (if Z.eqb (status r) 0 then Pending
                             else Rejected (command_failed command r)) false])).
Proof.
  intros r. unfold exec, promisify, new_Promise, alloc, bind, execSync, settle, ret.
  simpl. fold r.
  destruct (Z.eqb (status r) 0); simpl; [reflexivity|].
  rewrite update_length. reflexivity.
Qed.

(** ** Entries that are no objects *)

(** X11.  An entry that is a boolean, a number, a string or an array is
    destructured like an object without fields: it gets the command
    ["npm dist-tag add undefined@undefined <tag>"], and the callback
    returns normally. *)
Theorem entry_without_fields_is_tagged_as_undefined
  (host : Host) (t : string) (entry : value) (st : state) :
  has_no_fields entry = true ->
  fst (map_callback host (VString t) entry st) = Normal VUndefined
  /\ spawned (events (snd (map_callback host (VString t) entry st)))
     = (spawned (events st)
        ++ [("npm dist-tag add undefined@undefined " ++ t)%string])%list.
Proof.
  intros H.
  assert (Hc : command_of (VString t) entry
               = inr ("npm dist-tag add undefined@undefined " ++ t)).
  { destruct entry; try discriminate;
      unfold command_of; simpl; rewrite append_empty_r; reflexivity. }
  rewrite (map_callback_run host _ _ _ st Hc).
  split; [reflexivity | apply spawned_after_exec].
Qed.

Lemma entry_without_fields_is_tagged_as_undefined_witness :
  fst (map_callback Example.obliged (VString "latest") (VString "pkg-a") initial)
  = Normal VUndefined
  /\ spawned (events (snd (map_callback Example.obliged (VString "latest")
                             (VString "pkg-a") initial)))
     = ["npm dist-tag add undefined@undefined latest"].
Proof.
  apply (entry_without_fields_is_tagged_as_undefined Example.obliged
           "latest" (VString "pkg-a") initial).
  reflexivity.
Defined.

(** ** What the callback leaves behind when it throws *)

(** X13.  When the callback throws, it has done nothing yet: no command
    was spawned for the entry and no promise made, the state is the one
    it started from. *)
Theorem callback_throws_before_it_spawns
  (host : Host) (tag entry : value) (st st' : state) (e : exn) :
  map_callback host tag entry st = (Throw e, st') -> st' = st.
Proof.
  destruct (command_of tag entry) as [e'|command] eqn:E.
  - rewrite (map_callback_throws host tag entry e' st E). congruence.
  - rewrite (map_callback_run host tag entry command st E). discriminate.
Qed.

Lemma callback_throws_before_it_spawns_witness :
  snd (map_callback Example.refused (VString "latest") VNull
                    (snd (map_callback Example.refused (VString "latest")
                                       (VObject []) initial)))
  = snd (map_callback Example.refused (VString "latest") (VObject []) initial).
Proof.
  apply (callback_throws_before_it_spawns Example.refused (VString "latest") VNull
           (snd (map_callback Example.refused (VString "latest") (VObject []) initial))
           _ (mkExn TypeError "Cannot destructure property 'packageName'")).
  reflexivity.
Defined.

(** ** The standard error of the children *)

Lemma stderr_written_app (a b : list event) :
  stderr_written (a ++ b) = (stderr_written a ++ stderr_written b)%list.
Proof.
  induction a as [|x a IH]; simpl; [reflexivity|].
  destruct x; simpl; rewrite IH; reflexivity.
Qed.

Lemma stderr_written_commands_trace host commands : forall n,
  stderr_written (commands_trace host n commands) = children_stderr host n commands.
Proof.
  induction commands as [|c commands IH]; intros n; [reflexivity|].
  cbn [commands_trace children_stderr].
  rewrite stderr_written_app, IH. f_equal.
  unfold execSync_events. simpl.
  destruct (String.eqb (stderr (child host n c)) ""); reflexivity.
Qed.

(** X14.  The callback passes no [stdio] option, so what a child writes
    on its standard error is copied to the runner's: over a summary
    whose entries all yield a command, and when every command closes
    with status 0, nothing is left uncaught and the runner's standard
    error carries the children's, in the order of the entries, and
    nothing else. *)
Theorem children_stderr_is_copied
  (host : Host) (t text : string) (entries : list value) (commands : list string) :
  program_tag host = Some t -> t <> "" ->
  fs_readFile host (summary_path host) "utf8" = inr text ->
  JSON_parse host text = inr (VArray entries) ->
  Forall2 (fun entry command => command_of (VString t) entry = inr command)
          entries commands ->
  (forall i command,
      nth_error commands i = Some command ->
      status (child host i command) = 0%Z) ->
  stderr_written (events (final (script host))) = children_stderr host 0 commands
  /\ uncaught (script host) = None.
Proof.
  intros Ht Hne Hr Hp Hc Hall. split.
  - rewrite (script_events host t text entries commands Ht Hne Hr Hp Hc).
    rewrite events_after_commands_trace, stderr_written_app. simpl.
    apply stderr_written_commands_trace.
  - destruct (script_run host t text entries commands Ht Hne Hr Hp Hc)
      as (_ & _ & _ & Hu & _).
    rewrite Hu, (proj2 (failures_nil_iff host commands 0) Hall). reflexivity.
Qed.

Lemma children_stderr_is_copied_witness :
  stderr_written (events (final (script Sample.warned)))
  = ["npm WARN deprecated"; "npm WARN deprecated"]
  /\ uncaught (script Sample.warned) = None.
Proof.
  apply (children_stderr_is_copied Sample.warned "latest" Example.two_packages
           Example.two_values
           ["npm dist-tag add pkg-a@1.0.0 latest";
            "npm dist-tag add pkg-b@2.3.1 latest"]).
  - reflexivity.
  - discriminate.
  - reflexivity.
  - reflexivity.
  - repeat constructor.
  - intros i command _. reflexivity.
Defined.

(** * The location of the summary *)













(** * When [main] settles *)





(** * Fields that are missing, fields that are no strings *)

Lemma interpolates_to_command_of t entry command :
  interpolates_to t entry command -> command_of (VString t) entry = inr command.
Proof.
  intros (properties & p & v & -> & Hp & Hv & ->).
  unfold interpolated in Hp, Hv. unfold command_of. simpl.
  destruct (own_property properties "packageName") as [x|];
    destruct (own_property properties "version") as [y|];
    simpl; try rewrite Hp; try rewrite Hv; simpl;
    try (injection Hp as <-); try (injection Hv as <-);
    try rewrite Hv; simpl;
    rewrite append_empty_r; reflexivity.
Qed.

(** C10, as the specification words it, at two entries that are objects
    and lack a string [packageName].  Where [packageName] is [null], the
    command reads [null], not [undefined].  Where [packageName] is an
    object with a [toString] of its own (and [version] is missing), no
    command is issued at all: the callback throws before it gets to
    [exec]. *)
Lemma field_without_string_is_not_always_undefined :
  Example.parse Sample.name_null
  = inr (VArray [VObject [("packageName", VNull); ("version", VString "1.0.0")]])
  /\ spawned (events (final (script Sample.with_null_name)))
     = ["npm dist-tag add null@1.0.0 latest"]
  /\ occurs_in "undefined" "npm dist-tag add null@1.0.0 latest" = false
  /\ Example.parse Sample.name_unconvertible
     = inr (VArray [VObject [("packageName", VObject [("toString", VNull)])]])
  /\ spawned (events (final (script Sample.with_unconvertible_name))) = []
  /\ main_promise (script Sample.with_unconvertible_name)
     = Some (Rejected (mkExn TypeError "Cannot convert object to primitive value")).
Proof. repeat split. Qed.

(** C10 (amended).  The runner checks nothing about the fields of the
    entries.  Over a summary whose entries are objects in which each of
    [packageName] and [version] is missing or has a string conversion,
    it issues exactly one command per entry, with the text [undefined]
    in the place of a field that is missing and the field's own string
    conversion in the place of a field that is there, and [main]
    resolves. *)
Theorem object_entries_are_tagged_without_validation
  (host : Host) (t text : string) (entries : list value) (commands : list string) :
  program_tag host = Some t -> t <> "" ->
  fs_readFile host (summary_path host) "utf8" = inr text ->
  JSON_parse host text = inr (VArray entries) ->
  Forall2 (interpolates_to t) entries commands ->
  spawned (events (final (script host))) = commands
  /\ main_promise (script host) = Some (Fulfilled VUndefined).
Proof.
  intros Ht Hne Hr Hp Hi.
  assert (Hc : Forall2 (fun entry command => command_of (VString t) entry = inr command)
                       entries commands).
  { clear Hp. induction Hi as [|entry command entries commands H _ IH]; constructor.
    - apply interpolates_to_command_of, H.
    - exact IH. }
  destruct (script_run host t text entries commands Ht Hne Hr Hp Hc)
    as (Hs & _ & Hm & _).
  split; assumption.
Qed.

Lemma object_entries_are_tagged_without_validation_witness :
  spawned (events (final (script Sample.without_version)))
  = ["npm dist-tag add pkg-a@undefined latest"]
  /\ main_promise (script Sample.without_version) = Some (Fulfilled VUndefined).
Proof.
  apply (object_entries_are_tagged_without_validation Sample.without_version
           "latest" Sample.version_missing
           [VObject [("packageName", VString "pkg-a")]]
           ["npm dist-tag add pkg-a@undefined latest"]).
  - reflexivity.
  - discriminate.
  - reflexivity.
  - reflexivity.
  - repeat constructor.
    exists [("packageName", VString "pkg-a")], "pkg-a", "undefined".
    repeat split.
Defined.
